(** * The association engine of gorm (association.go), embedded in Rocq.

    The file follows the Go source function by function.  Go values that the
    engine inspects through package [reflect] are first-order terms here;
    every place where the Go runtime panics is an explicit [Panic] result;
    the handle, the owner values bound to it and the persistence layer are
    threaded through a small state-and-panic monad. *)

From Stdlib Require Import ZArith.
From stdpp Require Import base option list strings pretty gmap.

Set Warnings "-register-all".

Local Open Scope Z_scope.
Local Open Scope string_scope.

(** ** Package reflect: types, kinds and values *)

Module reflect.

(** Go types the engine meets: scalar columns, entity structs, pointers and
    slices. *)
Inductive type :=
  | TInt
  | TString
  | TStruct (name : string)
  | TPtr (elem : type)
  | TSlice (elem : type).

#[global] Instance type_eq_dec : EqDecision type.
Proof. solve_decision. Defined.

Inductive kind := Invalid | Int | String | Struct | Ptr | Slice | Array.

#[global] Instance kind_eq_dec : EqDecision kind.
Proof. solve_decision. Defined.

(** A column value as the database driver sees it; SQL NULL (Go's nil
    interface) is [None] of [option Scalar]. *)
Inductive Scalar :=
  | SInt (z : Z)
  | SStr (s : string).

#[global] Instance Scalar_eq_dec : EqDecision Scalar.
Proof. solve_decision. Defined.

(** reflect.Value.  A struct carries its type name and its fields by name; a
    field that is not listed holds the zero value of its type.  A pointer
    carries the type it points to and its target ([None] is nil).  Arrays do
    not occur among entity values, so no value has kind [Array]. *)
Inductive Value :=
  | VInvalid
  | VScalar (s : Scalar)
  | VStruct (name : string) (fields : list (string * Value))
  | VPtr (elem : type) (target : option Value)
  | VSlice (elem : type) (items : list Value).

Definition Kind (v : Value) : kind :=
  match v with
  | VInvalid => Invalid
  | VScalar (SInt _) => Int
  | VScalar (SStr _) => String
  | VStruct _ _ => Struct
  | VPtr _ _ => Ptr
  | VSlice _ _ => Slice
  end.

(** Value.Type; it panics ([None]) on the invalid Value. *)
Definition TypeOf (v : Value) : option type :=
  match v with
  | VInvalid => None
  | VScalar (SInt _) => Some TInt
  | VScalar (SStr _) => Some TString
  | VStruct n _ => Some (TStruct n)
  | VPtr t _ => Some (TPtr t)
  | VSlice t _ => Some (TSlice t)
  end.

(** Type.AssignableTo, for the types above: identical types. *)
Definition AssignableTo (t u : type) : bool := bool_decide (t = u).

(** Type.Elem: the element type of a pointer or slice type; it panics
    ([None]) on every other type. *)
Definition TypeElem (t : type) : option type :=
  match t with
  | TPtr e | TSlice e => Some e
  | _ => None
  end.

(** reflect.Zero. *)
Definition Zero (t : type) : Value :=
  match t with
  | TInt => VScalar (SInt 0)
  | TString => VScalar (SStr "")
  | TStruct n => VStruct n []
  | TPtr e => VPtr e None
  | TSlice e => VSlice e []
  end.

(** reflect.New: a pointer to a fresh zero value. *)
Definition New (t : type) : Value := VPtr t (Some (Zero t)).

(** Value.Elem on a pointer: its target, the invalid Value for nil; it
    panics on a Value that is not a pointer. *)
Definition Elem (v : Value) : option Value :=
  match v with
  | VPtr _ (Some w) => Some w
  | VPtr _ None => Some VInvalid
  | _ => None
  end.

(** reflect.Indirect: the target of a pointer, any other Value itself. *)
Definition Indirect (v : Value) : Value :=
  match v with
  | VPtr _ (Some w) => w
  | VPtr _ None => VInvalid
  | _ => v
  end.

(** Value.Len and Value.Index, which panic unless the Value is a slice (and
    the index in range). *)
Definition Len (v : Value) : option nat :=
  match v with
  | VSlice _ l => Some (length l)
  | _ => None
  end.

Definition Index (v : Value) (i : nat) : option Value :=
  match v with
  | VSlice _ l => l !! i
  | _ => None
  end.

(** reflect.Append: it panics unless its first argument has kind Slice and
    the appended Value is assignable to the element type. *)
Definition Append (s x : Value) : option Value :=
  match s with
  | VSlice e l =>
      match TypeOf x with
      | Some t => if AssignableTo t e then Some (VSlice e (l ++ [x])) else None
      | None => None
      end
  | _ => None
  end.

(** Value.IsZero. *)
Fixpoint IsZero (v : Value) : bool :=
  match v with
  | VInvalid => true
  | VScalar (SInt z) => bool_decide (z = 0)
  | VScalar (SStr s) => bool_decide (s = "")
  | VStruct _ fs =>
      (fix all (l : list (string * Value)) : bool :=
         match l with
         | [] => true
         | (_, w) :: l' => IsZero w && all l'
         end) fs
  | VPtr _ t => match t with None => true | Some _ => false end
  | VSlice _ l => match l with [] => true | _ => false end
  end.

End reflect.

Import reflect.

(** Go's [error] values of this package: the two errors association.go
    creates itself, the failure of a field setter, and whatever the
    persistence layer reports. *)
Inductive error :=
  | ErrInvalidLength
  | ErrUnsupportedDataType (t : type) (relation : string)
  | ErrSetField (field : string)
  | ErrExec (msg : string).

#[global] Instance error_eq_dec : EqDecision error.
Proof. solve_decision. Defined.

(** ** Package clause: the condition expressions the engine builds *)

Module clause.

(** clause.Eq, clause.IN, clause.And and clause.Not.  An IN over several
    columns compares tuples: [Column] lists the columns and every element of
    [Values] is one tuple. *)
Inductive Expression :=
  | Eq (Table Name : string) (Value : option Scalar)
  | IN (Column : list string) (Values : list (list (option Scalar)))
  | And (Exprs : list Expression)
  | Not (Expr : Expression).

Record Join := { Table : string; ON : list Expression }.

(** A statement clause: WHERE, FROM with joins, or one of the fixed filter
    clauses a join table carries (kept by name). *)
Inductive Clause :=
  | Where (Exprs : list Expression)
  | From (Joins : list Join)
  | Filter (name : string).

(** A table row: column name to value; a column that is not listed is
    NULL. *)
Abbreviation Row := (gmap string Scalar).

Definition columns_of (r : Row) (cols : list string) : list (option Scalar) :=
  map (fun c => r !! c) cols.

(** Modelled from the spec: the query layer is missing from the sources; its
    expressions are "equality", "membership", "and" and "not" over the
    columns of a row, and a composite key is compared as a tuple. *)
Fixpoint holds (r : Row) (e : Expression) : bool :=
  match e with
  | Eq _ c v => bool_decide (r !! c = v)
  | IN cols vals => bool_decide (columns_of r cols ∈ vals)
  | And es => forallb (holds r) es
  | Not e' => negb (holds r e')
  end.

(** Modelled from the spec: the conditions handed to one Where call all have
    to hold for a row to be selected. *)
Definition selects (conds : list Expression) (r : Row) : bool :=
  forallb (holds r) conds.

End clause.

(** ** Package schema: fields, references, relationships *)

Module schema.

Inductive RelationshipType := HasOne | HasMany | BelongsTo | Many2Many.

#[global] Instance RelationshipType_eq_dec : EqDecision RelationshipType.
Proof. solve_decision. Defined.

Record Field := {
  Name : string;
  DBName : string;
  FieldType : type;
}.

(** Field.IndirectFieldType: the field's type with its pointers removed. *)
Fixpoint strip_pointers (t : type) : type :=
  match t with
  | TPtr e => strip_pointers e
  | _ => t
  end.

Definition IndirectFieldType (f : Field) : type := strip_pointers (FieldType f).

(** One key correspondence.  [PrimaryValue] is the fixed discriminator of a
    polymorphic reference, the empty string when there is none. *)
Record Reference := {
  PrimaryKey : Field;
  PrimaryValue : string;
  ForeignKey : Field;
  OwnPrimaryKey : bool;
}.

Record JoinTable := {
  JTable : string;
  JModelType : type;
  QueryClauses : list clause.Clause;
}.

Record Schema := {
  ModelType : type;
  PrioritizedPrimaryField : Field;
}.

Record Relationship := {
  RName : string;
  Type_ : RelationshipType;
  RField : Field;
  References : list Reference;
  FieldSchema : Schema;
  RJoinTable : option JoinTable;
}.

(** *** Field access

    The field accessors are not part of association.go.  Modelled from the
    spec: "given an entity value and a field identifier, get/set that field's
    value, including zero-value detection", where set can fail. *)

Fixpoint field_get (n : string) (fs : list (string * Value)) : option Value :=
  match fs with
  | [] => None
  | (k, v) :: fs' => if decide (k = n) then Some v else field_get n fs'
  end.

Fixpoint field_put (n : string) (x : Value) (fs : list (string * Value))
  : list (string * Value) :=
  match fs with
  | [] => [(n, x)]
  | (k, v) :: fs' =>
      if decide (k = n) then (k, x) :: fs' else (k, v) :: field_put n x fs'
  end.

(** Field.ReflectValueOf: the field of the struct behind [v]; as Value.Field
    does, it panics ([None]) when that is not a struct. *)
Definition ReflectValueOf (f : Field) (v : Value) : option Value :=
  match Indirect v with
  | VStruct _ fs => Some (default (Zero (FieldType f)) (field_get (Name f) fs))
  | _ => None
  end.

(** Field.ValueOf: the field's value and whether it is the zero value. *)
Definition ValueOf (f : Field) (v : Value) : option (Value * bool) :=
  fv ← ReflectValueOf f v; Some (fv, IsZero fv).

(** What a setter stores for [x]: [x] itself when its type is the field's,
    the target of [x] when [x] points to a value of the field's type, a
    pointer to [x] when the field is a pointer to [x]'s type. *)
Definition settable (f : Field) (x : Value) : option Value :=
  match TypeOf x with
  | None => None
  | Some t =>
      if AssignableTo t (FieldType f) then Some x
      else match x with
           | VPtr e (Some w) =>
               if AssignableTo e (FieldType f) then Some w else None
           | _ => if AssignableTo (TPtr t) (FieldType f)
                  then Some (VPtr t (Some x)) else None
           end
  end.

Definition store_field (n : string) (x : Value) (v : Value) : option Value :=
  match v with
  | VStruct s fs => Some (VStruct s (field_put n x fs))
  | VPtr t (Some (VStruct s fs)) =>
      Some (VPtr t (Some (VStruct s (field_put n x fs))))
  | _ => None
  end.

(** Field.Set on the struct behind [v]: the updated struct and the setter's
    error.  A value that cannot be stored leaves the struct as it is. *)
Definition Set_ (f : Field) (v x : Value) : option (Value * option error) :=
  match settable f x with
  | Some y => v' ← store_field (Name f) y v; Some (v', None)
  | None =>
      match Indirect v with
      | VStruct _ _ => Some (v, Some (ErrSetField (Name f)))
      | _ => None
      end
  end.

(** *** Key extraction

    utils.ToStringKey, schema.GetIdentityFieldValuesMap,
    schema.GetIdentityFieldValuesMapFromValues, schema.ToQueryValues and
    Relationship.ToQueryConditions are not part of association.go. *)

(** The driver value of a field: a scalar, NULL for anything else. *)
Definition Interface (v : Value) : option Scalar :=
  match v with
  | VScalar s => Some s
  | _ => None
  end.

Definition render (x : option Scalar) : string :=
  match x with
  | None => "<nil>"
  | Some (SInt z) => pretty z
  | Some (SStr s) => s
  end.

(** Modelled from the spec: "a canonical string key (built by
    deterministically concatenating each field's value)". *)
Fixpoint ToStringKey (vals : list (option Scalar)) : string :=
  match vals with
  | [] => ""
  | [x] => render x
  | x :: rest => render x +:+ "_" +:+ ToStringKey rest
  end.

(** The key tuple of one entity; a value that is no struct has NULL keys. *)
Definition key_of (fields : list Field) (v : Value) : list (option Scalar) :=
  map (fun f => Interface (default VInvalid (ReflectValueOf f v))) fields.

Definition add_identity (fields : list Field)
    (acc : gmap string (list Value) * list (list (option Scalar))) (e : Value)
  : gmap string (list Value) * list (list (option Scalar)) :=
  let k := key_of fields e in
  let m : gmap string (list Value) := acc.1 in
  match m !! ToStringKey k with
  | Some es => (<[ToStringKey k := (es ++ [e])%list]> m, acc.2)
  | None => (<[ToStringKey k := [e]]> m, (acc.2 ++ [k])%list)
  end.

(** The entities a Value stands for: a struct itself, the elements of a
    slice. *)
Definition entities (v : Value) : list Value :=
  match Indirect v with
  | VStruct n fs => [VStruct n fs]
  | VSlice _ l => map Indirect l
  | _ => []
  end.

(** Modelled from the spec: the Key Extractor, "extract(values, fields) ->
    (identity map, flat value list)"; the map goes from the string key to the
    originating entities, the list holds each distinct key tuple once, and a
    zero key is a key like any other. *)
Definition GetIdentityFieldValuesMap (rv : Value) (fields : list Field)
  : gmap string (list Value) * list (list (option Scalar)) :=
  foldl (add_identity fields) (∅, []) (entities rv).

Definition GetIdentityFieldValuesMapFromValues (values : list Value)
    (fields : list Field)
  : gmap string (list Value) * list (list (option Scalar)) :=
  foldl (add_identity fields) (∅, []) (concat (map entities values)).

(** schema.ToQueryValues: the columns and the tuples of one membership
    test. *)
Definition ToQueryValues (foreignKeys : list string)
    (values : list (list (option Scalar)))
  : list string * list (list (option Scalar)) :=
  (foreignKeys, values).

(** Modelled from the spec (4.1, Condition Builder): a literal reference
    gives an equality on its column; the other references give one
    membership test, over all their columns at once, of the owners' key
    tuples: the related side's foreign keys against the owners' primary keys
    where the owner holds the primary key, the related side's primary keys
    against the owners' foreign keys otherwise; with a join table only the
    owner side is tested, against the join table's columns. *)
Definition ToQueryConditions (rel : Relationship) (reflectValue : Value)
  : list clause.Expression :=
  let literal := filter (fun r => bool_decide (PrimaryValue r ≠ "")) (References rel) in
  let keyed := filter (fun r => bool_decide (PrimaryValue r = "")
                         && (bool_decide (RJoinTable rel = None) || OwnPrimaryKey r))
                 (References rel) in
  let table := match RJoinTable rel with Some jt => JTable jt | None => "" end in
  let columns := map (fun r => if OwnPrimaryKey r || bool_decide (RJoinTable rel ≠ None)
                               then DBName (ForeignKey r)
                               else DBName (PrimaryKey r)) keyed in
  let fields := map (fun r => if OwnPrimaryKey r then PrimaryKey r
                              else ForeignKey r) keyed in
  map (fun r => clause.Eq table (DBName (ForeignKey r)) (Some (SStr (PrimaryValue r))))
      literal
  ++ [clause.IN columns (GetIdentityFieldValuesMap reflectValue fields).2].

End schema.

Import schema.

(** ** The persistence layer (type DB)

    Type DB is not part of association.go.  Modelled from the spec (6,
    query/execution layer): it takes condition expressions and the verbs
    find, count, updateColumns, delete and save (optionally restricted to
    selected columns), and each verb "returns a generic execution error on
    failure".  A handle keeps one DB value for all its calls, so the error of
    the last verb is what [Error] shows afterwards.  The layer here is the
    stub the spec proposes for testing: it records every verb it is asked to
    run, and a script fixes the outcome of the verbs to come. *)

Module persistence.

Inductive Call :=
  | Find (clauses : list clause.Clause) (conds : list Value)
  | Count (clauses : list clause.Clause)
  | Save (Select : option (list string)) (value : Value)
  | UpdateColumns (Model : option type) (clauses : list clause.Clause)
                  (attrs : gmap string (option Scalar))
  | Delete (clauses : list clause.Clause) (model : type).

(** The outcome of one verb: its error, and the number a count leaves in the
    variable it is given the address of. *)
Record Outcome := { failure : option error; counted : Z }.

Definition success : Outcome := {| failure := None; counted := 0 |}.

Record Statement := {
  ReflectValue : Value;
  Schema : schema.Schema;
}.

Record DB := {
  Statement_ : Statement;
  Error : option error;
  calls : list Call;
  script : list Outcome;
}.

(** Run one verb: log it, take its outcome from the script (success when the
    script is used up) and leave the outcome's error in [Error]. *)
Definition run (c : Call) (db : DB) : DB * Outcome :=
  let o := default success (head (script db)) in
  ({| Statement_ := Statement_ db; Error := failure o;
      calls := calls db ++ [c]; script := tail (script db) |}, o).

Definition with_value (v : Value) (db : DB) : DB :=
  {| Statement_ := {| ReflectValue := v; Schema := Schema (Statement_ db) |};
     Error := Error db; calls := calls db; script := script db |}.

(** Modelled from the spec: what the verb updateColumns does to the rows of
    its table.  In every row that all the WHERE clauses of the statement
    select, each column of [attrs] takes its new value; nil stores NULL. *)
Definition whereExprs (clauses : list clause.Clause) : list clause.Expression :=
  concat (map (fun c => match c with clause.Where es => es | _ => [] end) clauses).

Definition assign (attrs : gmap string (option Scalar)) (r : clause.Row)
  : clause.Row :=
  map_fold (fun c v acc => match v with
                           | Some x => <[c := x]> acc
                           | None => delete c acc
                           end) r attrs.

Definition updateColumns (clauses : list clause.Clause)
    (attrs : gmap string (option Scalar)) (rows : list clause.Row)
  : list clause.Row :=
  map (fun r => if clause.selects (whereExprs clauses) r then assign attrs r else r)
      rows.

End persistence.

(** ** The association handle and its monad *)

Record Association := {
  DB : persistence.DB;
  Relationship : schema.Relationship;
  Error : option error;
}.

(** The result of running a piece of the engine on a handle: a value and the
    handle afterwards, or a Go panic. *)
Inductive Res (A : Type) :=
  | Ok (a : A) (s : Association)
  | Panic (msg : string).

Arguments Ok {A} a s.
Arguments Panic {A} msg.

Definition M (A : Type) : Type := Association -> Res A.

#[global] Instance M_ret : MRet M := fun A a s => Ok a s.

#[global] Instance M_bind : MBind M := fun A B k m s =>
  match m s with
  | Ok a s' => k a s'
  | Panic msg => Panic msg
  end.

Definition panic {A} (msg : string) : M A := fun _ => Panic msg.

Definition get : M Association := fun s => Ok s s.

(** An operation of reflect or of a field accessor that may panic. *)
Definition must {A} (msg : string) (o : option A) : M A :=
  match o with
  | Some a => mret a
  | None => panic msg
  end.

Definition setError (e : option error) : M unit :=
  fun s => Ok tt {| DB := DB s; Relationship := Relationship s; Error := e |}.

(** The owners bound to the handle: association.DB.Statement.ReflectValue. *)
Definition reflectValue : M Value :=
  fun s => Ok (persistence.ReflectValue (persistence.Statement_ (DB s))) s.

Definition setReflectValue (v : Value) : M unit :=
  fun s => Ok tt {| DB := persistence.with_value v (DB s);
                    Relationship := Relationship s; Error := Error s |}.

(** Issue one verb on association.DB. *)
Definition call (c : persistence.Call) : M persistence.Outcome :=
  fun s => let '(db, o) := persistence.run c (DB s) in
           Ok o {| DB := db; Relationship := Relationship s; Error := Error s |}.

(** [for _, x := range l { body x }]. *)
Fixpoint forEach {A} (l : list A) (body : A -> M unit) : M unit :=
  match l with
  | [] => mret tt
  | x :: l' => body x ;; forEach l' body
  end.

(** [for _, x := range l { acc = body acc x }]: a loop that updates a local
    variable. *)
Fixpoint foldM {A B} (body : B -> A -> M B) (acc : B) (l : list A) : M B :=
  match l with
  | [] => mret acc
  | x :: l' => acc' ← body acc x; foldM body acc' l'
  end.

(** ** saveAssociation (association.go, lines 272-362) *)

(** Where a field setter writes: the bound owner value itself
    ([reflectValue]) or its i-th element ([reflectValue.Index(i)]).  Both are
    references into the owners the handle is bound to, so a write is a write
    to the handle's state. *)
Inductive Source := Whole | At (i : nat).

Definition load (src : Source) : M Value :=
  rv ← reflectValue;
  match src with
  | Whole => mret rv
  | At i => must "reflect: slice index out of range" (Index rv i)
  end.

Definition store (src : Source) (v : Value) : M unit :=
  match src with
  | Whole => setReflectValue v
  | At i =>
      rv ← reflectValue;
      match rv with
      | VSlice e l => setReflectValue (VSlice e (<[i:=v]> l))
      | _ => panic "reflect: call of Index on a Value that is no slice"
      end
  end.

(** [f.Set(source, x)], with the error it returns. *)
Definition fieldSet (f : Field) (src : Source) (x : Value) : M (option error) :=
  v ← load src;
  r ← must "reflect: call of Field on a Value that is no struct" (Set_ f v x);
  store src r.1;;
  mret r.2.

(** The closure appendToFieldValues (lines 293-301); the local variable
    fieldValue it updates is passed in and returned. *)
Definition appendToFieldValues (elemType : type) (fieldValue ev : Value)
  : M Value :=
  t ← must "reflect: call of Type on zero Value" (TypeOf ev);
  if AssignableTo t elemType then
    must "reflect: call of Append on a Value that is no slice" (Append fieldValue ev)
  else
    te ← must "reflect: Elem of invalid type" (TypeElem t);
    if AssignableTo te elemType then
      x ← must "reflect: call of Elem on a Value that is no pointer" (Elem ev);
      must "reflect: call of Append on a Value that is no slice" (Append fieldValue x)
    else
      s ← get;
      setError (Some (ErrUnsupportedDataType t (RName (Relationship s))));;
      mret fieldValue.

Definition isSequence (k : kind) : bool :=
  match k with
  | Slice | Array => true
  | _ => false
  end.

(** The closure appendToRelations (lines 275-316). *)
Definition appendToRelations (source : Source) (rv : Value) (clear : bool)
  : M unit :=
  s ← get;
  let rel := Relationship s in
  match Type_ rel with
  | HasOne | BelongsTo =>
      if isSequence (Kind rv) then
        n ← must "reflect: call of Len" (Len rv);
        if bool_decide (0 < n)%nat then
          x ← must "reflect: slice index out of range" (Index rv 0);
          e ← fieldSet (RField rel) source x;
          setError e
        else mret tt
      else if bool_decide (Kind rv = Struct) then
        e ← fieldSet (RField rel) source rv;
        setError e
      else mret tt
  | HasMany | Many2Many =>
      elemType ← must "reflect: Elem of invalid type"
                   (TypeElem (IndirectFieldType (RField rel)));
      owners ← reflectValue;
      current ← must "reflect: call of Field on a Value that is no struct"
                  (ReflectValueOf (RField rel) owners);
      let fieldValue :=
        if clear then New (IndirectFieldType (RField rel)) else Indirect current in
      fieldValue' ←
        (if isSequence (Kind rv) then
           n ← must "reflect: call of Len" (Len rv);
           foldM (fun fv i =>
                    x ← must "reflect: slice index out of range" (Index rv i);
                    appendToFieldValues elemType fv (Indirect x))
                 fieldValue (seq 0 n)
         else if bool_decide (Kind rv = Struct) then
           appendToFieldValues elemType fieldValue rv
         else mret fieldValue);
      s' ← get;
      match Error s' with
      | None =>
          e ← fieldSet (RField rel) source fieldValue';
          setError e
      | Some _ => mret tt
      end
  end.

Definition selectedColumns (rel : schema.Relationship) : list string :=
  RName rel
  :: map (fun ref => Name (ForeignKey ref))
         (filter (fun ref => negb (OwnPrimaryKey ref)) (References rel)).

Definition saveAssociation (clear : bool) (values : list Value) : M unit :=
  s ← get;
  let rel := Relationship s in
  let primary := PrioritizedPrimaryField (persistence.Schema (persistence.Statement_ (DB s))) in
  rv ← reflectValue;
  hasZero ←
    (if isSequence (Kind rv) then
       n ← must "reflect: call of Len" (Len rv);
       if bool_decide (length values ≠ n) && clear && bool_decide (length values = 0%nat)
       then
         forEach (seq 0 n) (fun i =>
           fieldSet (RField rel) (At i) (New (IndirectFieldType (RField rel)));;
           mret tt);;
         mret false
       else
         (if bool_decide (length values ≠ n)
          then setError (Some ErrInvalidLength) else mret tt);;
         foldM (fun hasZero i =>
                  value ← must "index out of range" (values !! i);
                  appendToRelations (At i) (Indirect value) clear;;
                  if hasZero : bool then mret true
                  else owner ← load (At i);
                       z ← must "reflect: call of Field on a Value that is no struct"
                             (ValueOf primary owner);
                       mret z.2)
               false (seq 0 n)
     else if bool_decide (Kind rv = Struct) then
       (if clear && bool_decide (length values = 0%nat)
        then fieldSet (RField rel) Whole (New (IndirectFieldType (RField rel)));;
             mret tt
        else mret tt);;
       forEach (imap (fun idx value => (idx, value)) values)
         (fun '(idx, value) =>
            appendToRelations Whole (Indirect value)
              (clear && bool_decide (idx = 0%nat)));;
       owner ← reflectValue;
       z ← must "reflect: call of Field on a Value that is no struct"
             (ValueOf primary owner);
       mret z.2
     else mret false);
  owners ← reflectValue;
  (if hasZero : bool
   then call (persistence.Save None owners)
   else call (persistence.Save (Some (selectedColumns rel)) owners));;
  mret tt.

(** ** Find and Count (lines 36-60 and 246-270) *)

Definition queryClauses (rel : schema.Relationship) (conds : list clause.Expression)
  : list clause.Clause :=
  match RJoinTable rel with
  | Some jt =>
      QueryClauses jt
      ++ [clause.From [{| clause.Table := JTable jt; clause.ON := conds |}]]
  | None => [clause.Where conds]
  end.

Definition Find (conds : list Value) : M (option error) :=
  s ← get;
  match Error s with
  | None =>
      rv ← reflectValue;
      let queryConds := ToQueryConditions (Relationship s) rv in
      o ← call (persistence.Find (queryClauses (Relationship s) queryConds) conds);
      setError (persistence.failure o);;
      s' ← get;
      mret (Error s')
  | Some e => mret (Some e)
  end.

(** Count's result [count] is a named result that starts at 0; tx.Count is
    handed its address, and what Count returns is what tx.Count left there,
    whether or not the query failed. *)
Definition Count : M Z :=
  s ← get;
  match Error s with
  | None =>
      rv ← reflectValue;
      let conds := ToQueryConditions (Relationship s) rv in
      o ← call (persistence.Count (queryClauses (Relationship s) conds));
      setError (persistence.failure o);;
      mret (persistence.counted o)
  | Some _ => mret 0
  end.

(** ** Replace (lines 77-152) *)

Definition nullMap (columns : list string) : gmap string (option Scalar) :=
  foldl (fun m c => <[c := None]> m) ∅ columns.

(** The second phase of Replace for HasOne and HasMany (lines 85-103). *)
Definition replaceHas (rel : schema.Relationship) (rv : Value) : persistence.Call :=
  let primaryFields :=
    map PrimaryKey (filter (fun ref => OwnPrimaryKey ref) (References rel)) in
  let foreignKeys :=
    map (fun ref => DBName (ForeignKey ref))
        (filter (fun ref => negb (OwnPrimaryKey ref)) (References rel)) in
  let updateMap := nullMap foreignKeys in
  let values := (GetIdentityFieldValuesMap rv primaryFields).2 in
  let '(column, queryValues) := ToQueryValues foreignKeys values in
  persistence.UpdateColumns (Some (ModelType (FieldSchema rel)))
    [clause.Where [clause.IN column queryValues]] updateMap.

(** The three groups the references of a Many2Many relationship fall into
    (lines 110-123). *)
Definition ownReferences (rel : schema.Relationship) : list Reference :=
  filter (fun ref => OwnPrimaryKey ref) (References rel).

Definition literalReferences (rel : schema.Relationship) : list Reference :=
  filter (fun ref => negb (OwnPrimaryKey ref) && bool_decide (PrimaryValue ref ≠ ""))
         (References rel).

Definition relReferences (rel : schema.Relationship) : list Reference :=
  filter (fun ref => negb (OwnPrimaryKey ref) && bool_decide (PrimaryValue ref = ""))
         (References rel).

Definition literalConds (rel : schema.Relationship) (jt : JoinTable)
  : list clause.Expression :=
  map (fun ref => clause.Eq (JTable jt) (DBName (ForeignKey ref))
                    (Some (SStr (PrimaryValue ref))))
      (literalReferences rel).

(** The closure generateConds (lines 125-137): the condition one owner
    contributes. *)
Definition generateConds (rel : schema.Relationship) (rv : Value)
  : option clause.Expression :=
  let values := (GetIdentityFieldValuesMap rv (map PrimaryKey (ownReferences rel))).2 in
  let '(column, queryValues) :=
    ToQueryValues (map (fun ref => DBName (ForeignKey ref)) (ownReferences rel)) values in
  relValue ← ReflectValueOf (RField rel) rv;
  let relValues :=
    (GetIdentityFieldValuesMap relValue (map PrimaryKey (relReferences rel))).2 in
  let '(relColumn, relQueryValues) :=
    ToQueryValues (map (fun ref => DBName (ForeignKey ref)) (relReferences rel)) relValues in
  Some (clause.And [clause.IN column queryValues;
                    clause.Not (clause.IN relColumn relQueryValues)]).

(** The owners a loop over the bound value visits. *)
Definition boundOwners (rv : Value) : list Value :=
  if isSequence (Kind rv) then
    match rv with VSlice _ l => l | _ => [] end
  else if bool_decide (Kind rv = Struct) then [rv]
  else [].

Fixpoint mapM {A B} (f : A -> M B) (l : list A) : M (list B) :=
  match l with
  | [] => mret []
  | x :: l' => y ← f x; ys ← mapM f l'; mret (y :: ys)
  end.

Definition Replace (values : list Value) : M (option error) :=
  s ← get;
  match Error s with
  | None =>
      saveAssociation true values;;
      rv ← reflectValue;
      let rel := Relationship s in
      match Type_ rel with
      | HasOne | HasMany =>
          call (replaceHas rel rv);; mret tt
      | Many2Many =>
          jt ← must "invalid memory address or nil pointer dereference"
                 (RJoinTable rel);
          owned ← mapM (fun owner =>
                          must "reflect: call of Field on a Value that is no struct"
                               (generateConds rel owner))
                       (boundOwners rv);
          call (persistence.Delete [clause.Where (literalConds rel jt ++ owned)]
                                   (JModelType jt));;
          mret tt
      | BelongsTo => mret tt
      end;;
      s' ← get;
      mret (Error s')
  | Some e => mret (Some e)
  end.

(** ** Append and Clear (lines 62-75 and 242-244) *)

Definition Append (values : list Value) : M (option error) :=
  s ← get;
  match Error s with
  | None =>
      match Type_ (Relationship s) with
      | HasOne | BelongsTo =>
          if bool_decide (0 < length values)%nat then
            e ← Replace values;
            setError e
          else mret tt
      | _ => saveAssociation false values
      end;;
      s' ← get;
      mret (Error s')
  | Some e => mret (Some e)
  end.

Definition Clear : M (option error) := Replace [].

(** ** Delete (lines 154-240) *)

(** The references Delete keys on (lines 166-179): those without a literal
    value that, with a join table, are not on the owner's side. *)
Definition deleteReferences (rel : schema.Relationship) : list Reference :=
  filter (fun ref => bool_decide (PrimaryValue ref = "")
                     && (bool_decide (RJoinTable rel = None) || negb (OwnPrimaryKey ref)))
         (References rel).

Definition relFields (rel : schema.Relationship) : list Field :=
  map (fun ref => if OwnPrimaryKey ref then ForeignKey ref else PrimaryKey ref)
      (deleteReferences rel).

Definition deleteForeignKeys (rel : schema.Relationship) : list string :=
  map (fun ref => DBName (ForeignKey ref)) (deleteReferences rel).

(** [utils.ToStringKey(fieldValues...)] for the fields [relFields] read from
    [v]. *)
Definition fieldKey (fields : list Field) (v : Value) : M string :=
  fieldValues ← mapM (fun field =>
                        must "reflect: call of Field on a Value that is no struct"
                             (ReflectValueOf field v))
                     fields;
  mret (ToStringKey (map Interface fieldValues)).

(** The closure cleanUpDeletedRelations (lines 197-225), run on the owner at
    [source]. *)
Definition cleanUpDeletedRelations (rel : schema.Relationship)
    (relValuesMap : gmap string (list Value)) (source : Source) : M unit :=
  owner ← load source;
  let data := Indirect owner in
  z ← must "reflect: call of Field on a Value that is no struct"
        (ValueOf (RField rel) data);
  if z.2 : bool then mret tt
  else
    let fieldValue := Indirect z.1 in
    if isSequence (Kind fieldValue) then
      n ← must "reflect: call of Len" (Len fieldValue);
      validFieldValues ←
        foldM (fun valid i =>
                 x ← must "reflect: slice index out of range" (Index fieldValue i);
                 k ← fieldKey (relFields rel) x;
                 match relValuesMap !! k with
                 | Some _ => mret valid
                 | None =>
                     must "reflect: call of Append on a Value that is no slice"
                          (reflect.Append valid x)
                 end)
              (Zero (FieldType (RField rel))) (seq 0 n);
      fieldSet (RField rel) source validFieldValues;;
      mret tt
    else if bool_decide (Kind fieldValue = Struct) then
      k ← fieldKey (relFields rel) data;
      match relValuesMap !! k with
      | Some _ =>
          fieldSet (RField rel) source (Zero (ModelType (FieldSchema rel)));;
          mret tt
      | None => mret tt
      end
    else mret tt.

(** The update or delete that Delete issues (lines 181-194). *)
Definition deleteCall (rel : schema.Relationship) (rv : Value) (values : list Value)
  : option persistence.Call :=
  let conds := ToQueryConditions rel rv in
  let relQueryValues :=
    (GetIdentityFieldValuesMapFromValues values (relFields rel)).2 in
  let '(column, queryValues) := ToQueryValues (deleteForeignKeys rel) relQueryValues in
  let clauses := [clause.Where [clause.IN column queryValues]; clause.Where conds] in
  let updateAttrs := nullMap (deleteForeignKeys rel) in
  match Type_ rel with
  | HasOne | HasMany =>
      Some (persistence.UpdateColumns (Some (ModelType (FieldSchema rel)))
              clauses updateAttrs)
  | BelongsTo => Some (persistence.UpdateColumns None clauses updateAttrs)
  | Many2Many =>
      jt ← RJoinTable rel;
      Some (persistence.Delete clauses (JModelType jt))
  end.

Definition Delete (values : list Value) : M (option error) :=
  s ← get;
  match Error s with
  | None =>
      let rel := Relationship s in
      rv ← reflectValue;
      let relValuesMap :=
        (GetIdentityFieldValuesMapFromValues values (relFields rel)).1 in
      c ← must "invalid memory address or nil pointer dereference"
            (deleteCall rel rv values);
      call c;;
      s' ← get;
      match persistence.Error (DB s') with
      | None =>
          if isSequence (Kind rv) then
            n ← must "reflect: call of Len" (Len rv);
            forEach (seq 0 n) (fun i => cleanUpDeletedRelations rel relValuesMap (At i))
          else if bool_decide (Kind rv = Struct) then
            cleanUpDeletedRelations rel relValuesMap Whole
          else mret tt
      | Some e => setError (Some e)
      end;;
      s'' ← get;
      mret (Error s'')
  | Some e => mret (Some e)
  end.

(** ** Association (lines 20-34)

    db.Association parses the model of the statement and looks the column up
    among the relationships of the schema.  Statement.Parse is not part of
    association.go: what it yields, an error or the relationships by name, is
    an argument here.  The handle is built before the relationship is known,
    so its relationship may be nil. *)

Inductive Parsed :=
  | ParseFailed (err : error)
  | ParsedSchema (Relations : gmap string schema.Relationship).

(** The errors of a fresh handle: [fmt.Errorf("%w: %v",
    ErrUnsupportedRelation, column)], or the error of Parse. *)
Inductive bindError :=
  | ErrUnsupportedRelation (column : string)
  | ErrParse (err : error).

Record Bound := {
  BDB : persistence.DB;
  BRelationship : option schema.Relationship;
  BError : option bindError;
}.

Definition Association_ (db : persistence.DB) (parsed : Parsed) (column : string)
  : Bound :=
  match parsed with
  | ParsedSchema Relations =>
      match Relations !! column with
      | Some rel => {| BDB := db; BRelationship := Some rel; BError := None |}
      | None => {| BDB := db; BRelationship := None;
                   BError := Some (ErrUnsupportedRelation column) |}
      end
  | ParseFailed err =>
      {| BDB := db; BRelationship := None; BError := Some (ErrParse err) |}
  end.

(** The handle the operations above work on: a fresh handle that has its
    relationship and no error. *)
Definition usable (b : Bound) : option Association :=
  match BRelationship b, BError b with
  | Some rel, None => Some {| DB := BDB b; Relationship := rel; Error := None |}
  | _, _ => None
  end.

(** ** Sample schemas

    A user with one account (HasOne), comments (HasMany), a company
    (BelongsTo) and tags through a join table (Many2Many). *)

Module sample.

Definition intField (name dbname : string) : Field :=
  {| Name := name; DBName := dbname; FieldType := TInt |}.

Definition ID : Field := intField "ID" "id".

Definition schemaOf (name : string) : Schema :=
  {| ModelType := TStruct name; PrioritizedPrimaryField := ID |}.

Definition account : schema.Relationship :=
  {| RName := "Account"; Type_ := HasOne;
     RField := {| Name := "Account"; DBName := ""; FieldType := TStruct "Account" |};
     References := [ {| PrimaryKey := ID; PrimaryValue := "";
                        ForeignKey := intField "UserID" "user_id";
                        OwnPrimaryKey := true |} ];
     FieldSchema := schemaOf "Account"; RJoinTable := None |}.

Definition comments : schema.Relationship :=
  {| RName := "Comments"; Type_ := HasMany;
     RField := {| Name := "Comments"; DBName := "";
                  FieldType := TSlice (TStruct "Comment") |};
     References := [ {| PrimaryKey := ID; PrimaryValue := "";
                        ForeignKey := intField "UserID" "user_id";
                        OwnPrimaryKey := true |} ];
     FieldSchema := schemaOf "Comment"; RJoinTable := None |}.

Definition company : schema.Relationship :=
  {| RName := "Company"; Type_ := BelongsTo;
     RField := {| Name := "Company"; DBName := ""; FieldType := TStruct "Company" |};
     References := [ {| PrimaryKey := ID; PrimaryValue := "";
                        ForeignKey := intField "CompanyID" "company_id";
                        OwnPrimaryKey := false |} ];
     FieldSchema := schemaOf "Company"; RJoinTable := None |}.

(** A relationship whose field is a pointer: [Manager *User]. *)
Definition manager : schema.Relationship :=
  {| RName := "Manager"; Type_ := BelongsTo;
     RField := {| Name := "Manager"; DBName := "";
                  FieldType := TPtr (TStruct "User") |};
     References := [ {| PrimaryKey := ID; PrimaryValue := "";
                        ForeignKey := intField "ManagerID" "manager_id";
                        OwnPrimaryKey := false |} ];
     FieldSchema := schemaOf "User"; RJoinTable := None |}.

Definition tags : schema.Relationship :=
  {| RName := "Tags"; Type_ := Many2Many;
     RField := {| Name := "Tags"; DBName := ""; FieldType := TSlice (TStruct "Tag") |};
     References := [ {| PrimaryKey := ID; PrimaryValue := "";
                        ForeignKey := intField "UserID" "user_id";
                        OwnPrimaryKey := true |};
                     {| PrimaryKey := ID; PrimaryValue := "";
                        ForeignKey := intField "TagID" "tag_id";
                        OwnPrimaryKey := false |} ];
     FieldSchema := schemaOf "Tag";
     RJoinTable := Some {| JTable := "user_tags"; JModelType := TStruct "user_tags";
                           QueryClauses := [] |} |}.

(** An entity with the given primary key and further fields. *)
Definition entity (name : string) (id : Z) (fields : list (string * Value)) : Value :=
  VStruct name (("ID", VScalar (SInt id)) :: fields).

(** A handle without error, bound to [owners], on a persistence layer that
    has run nothing yet and will answer by [script]. *)
Definition handle (rel : schema.Relationship) (owners : Value)
    (script : list persistence.Outcome) : Association :=
  {| DB := {| persistence.Statement_ :=
                {| persistence.ReflectValue := owners;
                   persistence.Schema := schemaOf "User" |};
              persistence.Error := None;
              persistence.calls := [];
              persistence.script := script |};
     Relationship := rel;
     Error := None |}.

Definition failing (msg : string) : persistence.Outcome :=
  {| persistence.failure := Some (ErrExec msg); persistence.counted := 0 |}.

Definition user1 : Value := entity "User" 1 [].
Definition user2 : Value := entity "User" 2 [].
Definition account10 : Value := entity "Account" 10 [].
Definition account11 : Value := entity "Account" 11 [].
Definition comment3 : Value := entity "Comment" 3 [].
Definition company5 : Value := entity "Company" 5 [].
Definition company7 : Value := entity "Company" 7 [].
Definition post : Value := VStruct "Post" [].
Definition tag5 : Value := entity "Tag" 5 [].
Definition tag6 : Value := entity "Tag" 6 [].
Definition tag7 : Value := entity "Tag" 7 [].

(** [[]**Post{&p}] with [p := &Post{}]. *)
Definition postPointers : Value :=
  VSlice (TPtr (TPtr (TStruct "Post")))
    [VPtr (TPtr (TStruct "Post")) (Some (VPtr (TStruct "Post") (Some post)))].

Definition users (l : list Value) : Value := VSlice (TStruct "User") l.

(** The row of a related table: its primary key and its foreign key to the
    owner. *)
Definition row (id owner : Z) : clause.Row :=
  {[ "id" := SInt id; "user_id" := SInt owner ]}.

End sample.

(** What an operation left behind. *)
Definition owners (s : Association) : Value :=
  persistence.ReflectValue (persistence.Statement_ (DB s)).

Definition issued (s : Association) : list persistence.Call :=
  persistence.calls (DB s).

(** * Notions the properties are stated with *)

(** The handle after a successful setter call on its single owner. *)
Definition afterSet (s : Association) (v : Value) : Association :=
  {| DB := persistence.with_value v (DB s);
     Relationship := Relationship s;
     Error := None |}.

Definition singular (s : Association) : Prop :=
  Type_ (Relationship s) = HasOne \/ Type_ (Relationship s) = BelongsTo.

(** A struct value of the relationship field's type. *)
Definition fits (s : Association) (x : Value) : Prop :=
  Kind x = Struct /\ TypeOf x = Some (FieldType (RField (Relationship s))).

(** A struct value that the setter of the relationship field accepts: one of
    the field's type or, for a pointer field, of the type it points to. *)
Definition accepted (s : Association) (x : Value) : Prop :=
  Kind x = Struct /\ is_Some (settable (RField (Relationship s)) x).

(** The join table's columns for the owner's side and for the related side,
    and the keys the Key Extractor finds for one owner and for the values its
    relationship field holds. *)
Definition ownColumns (rel : schema.Relationship) : list string :=
  map (fun ref => DBName (ForeignKey ref)) (ownReferences rel).

Definition relColumns (rel : schema.Relationship) : list string :=
  map (fun ref => DBName (ForeignKey ref)) (relReferences rel).

Definition ownerKeys (rel : schema.Relationship) (owner : Value)
  : list (list (option Scalar)) :=
  (GetIdentityFieldValuesMap owner (map PrimaryKey (ownReferences rel))).2.

Definition newValueKeys (rel : schema.Relationship) (owner : Value)
  : option (list (list (option Scalar))) :=
  relValue ← ReflectValueOf (RField rel) owner;
  Some (GetIdentityFieldValuesMap relValue (map PrimaryKey (relReferences rel))).2.

(** A join row is stale for an owner when it carries one of the owner's keys
    and its related key is none of the keys of the owner's new values. *)
Definition staleFor (rel : schema.Relationship) (owner : Value) (r : clause.Row)
  : Prop :=
  exists keys,
    newValueKeys rel owner = Some keys
    /\ clause.columns_of r (ownColumns rel) ∈ ownerKeys rel owner
    /\ clause.columns_of r (relColumns rel) ∉ keys.




(** The shape of the bound owners: their kind and, for a slice, its
    length. *)
Definition shape (v : Value) : kind * option nat := (Kind v, Len v).

Definition isSave (c : persistence.Call) : Prop :=
  match c with
  | persistence.Save _ _ => True
  | _ => False
  end.

(** [saved s s']: from [s] to [s'] the owners kept their shape and the
    persistence layer was asked for saves only. *)
Definition saved (s s' : Association) : Prop :=
  shape (owners s') = shape (owners s)
  /\ exists l, issued s' = (issued s ++ l)%list /\ Forall isSave l.

(** An invariant of a run: [R] relates the handle before to the handle
    after, whenever the run returns. *)
Definition respects (R : relation Association) {A} (m : M A) : Prop :=
  forall s a s', m s = Ok a s' -> R s s'.

Abbreviation keeps := (respects saved).

(** [quiet s s']: from [s] to [s'] nothing was asked of the persistence
    layer and the handle kept its relationship; only fields of the owners and
    the handle's error may differ. *)
Definition quiet (s s' : Association) : Prop :=
  persistence.calls (DB s') = persistence.calls (DB s)
  /\ persistence.script (DB s') = persistence.script (DB s)
  /\ persistence.Error (DB s') = persistence.Error (DB s)
  /\ persistence.Schema (persistence.Statement_ (DB s'))
     = persistence.Schema (persistence.Statement_ (DB s))
  /\ Relationship s' = Relationship s
  /\ shape (owners s') = shape (owners s).

(** The primary key of an owner is zero: what
    [PrioritizedPrimaryField.ValueOf] reports as its second result. *)
Definition zeroKey (s : Association) (owner : Value) : option bool :=
  z ← ValueOf (PrioritizedPrimaryField (persistence.Schema (persistence.Statement_ (DB s))))
              owner;
  Some z.2.

(** [silent s s']: quiet, and the handle's error is as it was. *)
Definition silent (s s' : Association) : Prop :=
  quiet s s' /\ Error s' = Error s.

(** What Clear leaves of one owner: the relationship field holds its zero
    value. *)
Definition cleared (f : Field) (owner : Value) : Value :=
  match owner with
  | VStruct n fs => VStruct n (field_put (Name f) (Zero (FieldType f)) fs)
  | _ => owner
  end.

(** * Properties *)

Import sample.

(** ** The sticky error at the entry of every operation *)

(** The guard at the entry of every operation: on a handle whose error is
    already set, each of Find, Append, Replace, Delete, Clear and Count hands
    back that same error (Count hands back 0) and leaves the handle, the bound
    owners and the persistence layer exactly as they were, so no persistence
    call is issued. *)
Theorem sticky_error_short_circuits
    (s : Association) (e : error) (values conds : list Value) :
  Error s = Some e ->
  Find conds s = Ok (Some e) s
  /\ Append values s = Ok (Some e) s
  /\ Replace values s = Ok (Some e) s
  /\ Delete values s = Ok (Some e) s
  /\ Clear s = Ok (Some e) s
  /\ Count s = Ok 0 s.
Proof.
  intros He.
  unfold Find, Append, Replace, Delete, Clear, Replace, Count, get.
  unfold mbind, M_bind, mret, M_ret.
  rewrite He. repeat split; reflexivity.
Qed.

Lemma sticky_error_short_circuits_witness :
  let s := {| DB := DB (handle account (entity "User" 1 []) []);
              Relationship := account;
              Error := Some ErrInvalidLength |} in
  Find [] s = Ok (Some ErrInvalidLength) s
  /\ Append [entity "Account" 10 []] s = Ok (Some ErrInvalidLength) s
  /\ Replace [entity "Account" 10 []] s = Ok (Some ErrInvalidLength) s
  /\ Delete [entity "Account" 10 []] s = Ok (Some ErrInvalidLength) s
  /\ Clear s = Ok (Some ErrInvalidLength) s
  /\ Count s = Ok 0 s.
Proof.
  intros s.
  apply (sticky_error_short_circuits s ErrInvalidLength
           [entity "Account" 10 []] []).
  reflexivity.
Defined.

(** ** Append without values on a singular relationship *)

(** C10: on a handle without error whose relationship is HasOne or
    BelongsTo, Append with no values returns nil and leaves the handle, the
    owners and the persistence layer untouched. *)
Theorem append_nothing_singular_noop (s : Association) :
  Error s = None ->
  Type_ (Relationship s) = HasOne \/ Type_ (Relationship s) = BelongsTo ->
  Append [] s = Ok None s.
Proof.
  intros He Ht.
  unfold Append, get, mbind, M_bind, mret, M_ret.
  rewrite He.
  destruct Ht as [-> | ->]; simpl; rewrite He; reflexivity.
Qed.

Lemma append_nothing_singular_noop_witness :
  Append [] (handle company (entity "User" 1 []) [])
  = Ok None (handle company (entity "User" 1 []) []).
Proof.
  apply append_nothing_singular_noop.
  - reflexivity.
  - right. reflexivity.
Defined.

(** ** What Replace does after saveAssociation has recorded an error *)

(** C1 (the code at the failing input): Replace([]**Post{&p}) on the
    Comments relationship of one user.  saveAssociation records the
    unsupported-data-type error, skips the write to the field at its own test
    of association.Error, and issues its save.  Replace does not test
    association.Error again before its second phase: the update of the
    related table is issued all the same, and Replace returns the error. *)
Lemma replace_second_phase_runs_after_error :
  (exists s1,
      saveAssociation true [postPointers] (handle comments user1 []) = Ok tt s1
      /\ Error s1 = Some (ErrUnsupportedDataType (TPtr (TStruct "Post")) "Comments")
      /\ issued s1 = [persistence.Save (Some ["Comments"]) user1])
  /\ (exists s2,
      Replace [postPointers] (handle comments user1 [])
      = Ok (Some (ErrUnsupportedDataType (TPtr (TStruct "Post")) "Comments")) s2
      /\ issued s2 = [persistence.Save (Some ["Comments"]) user1;
                      persistence.UpdateColumns (Some (TStruct "Comment"))
                        [clause.Where [clause.IN [] [[Some (SInt 1)]]]] ∅]).
Proof.
  split; eexists; repeat split; vm_compute; reflexivity.
Qed.

(** ** The length contract *)

(** C3 (the code at the failing input): one owner in a collection, two
    values, HasOne.  saveAssociation records the length error and carries on:
    the setter's nil result overwrites the error, the owners are saved and
    Replace's update is issued; Append returns nil.  With fewer values than
    owners the loop runs past the end of the values and panics. *)
Lemma length_mismatch_is_not_final :
  (exists s,
      Append [account10; account11] (handle account (users [user1]) []) = Ok None s
      /\ Error s = None
      /\ owners s = users [entity "User" 1 [("Account", account10)]]
      /\ issued s
         = [persistence.Save (Some ["Account"])
              (users [entity "User" 1 [("Account", account10)]]);
            persistence.UpdateColumns (Some (TStruct "Account"))
              [clause.Where [clause.IN [] [[Some (SInt 1)]]]] ∅])
  /\ (exists s,
      Replace [account10; account11] (handle account (users [user1]) []) = Ok None s
      /\ length (issued s) = 2%nat)
  /\ Replace [account10] (handle account (users [user1; user2]) [])
     = Panic "index out of range".
Proof.
  repeat split; try (eexists; repeat split); vm_compute; reflexivity.
Qed.

(** ** Errors of the persistence layer *)

(** C5 (the code at the failing inputs): the update that ends Replace on a
    HasOne relationship fails, the delete that ends Clear on a Many2Many
    relationship fails, the save inside Append fails: each time the operation
    returns nil and the handle's error stays unset, while the persistence
    layer holds the error.  Count, on a failing query that leaves its result
    variable at 0, returns 0 and sets the handle's error. *)
Lemma replace_drops_persistence_errors :
  (exists s,
      Replace [account10] (handle account user1 [persistence.success; failing "update"])
      = Ok None s
      /\ Error s = None
      /\ persistence.Error (DB s) = Some (ErrExec "update"))
  /\ (exists s,
      Clear (handle tags user1 [persistence.success; failing "delete"]) = Ok None s
      /\ Error s = None
      /\ persistence.Error (DB s) = Some (ErrExec "delete"))
  /\ (exists s,
      Append [comment3] (handle comments user1 [failing "save"]) = Ok None s
      /\ Error s = None
      /\ persistence.Error (DB s) = Some (ErrExec "save"))
  /\ (exists s,
      Count (handle comments user1 [failing "count"]) = Ok 0 s
      /\ Error s = Some (ErrExec "count")).
Proof.
  repeat split; try (eexists; repeat split); vm_compute; reflexivity.
Qed.

(** ** Delete and the in-memory relationship field *)

(** C7 (the code at the failing input): a user that belongs to company 5;
    Delete(Company{ID: 5}) succeeds in the persistence layer.  The key of the
    field's value is among the keys of the deleted values, yet the field is
    not zeroed: the singular branch of cleanUpDeletedRelations reads the key
    fields from the owner (key 1), not from the field's value.  For the same
    reason a user with ID 5 loses its company 7 when company 5 is deleted. *)
Lemma delete_keys_singular_field_on_owner :
  (exists s,
      Delete [company5]
        (handle company
           (entity "User" 1 [("CompanyID", VScalar (SInt 5)); ("Company", company5)]) [])
      = Ok None s
      /\ ReflectValueOf (RField company) (owners s) = Some company5
      /\ is_Some ((GetIdentityFieldValuesMapFromValues [company5] (relFields company)).1
                  !! ToStringKey (key_of (relFields company) company5)))
  /\ (exists s,
      Delete [company5]
        (handle company
           (entity "User" 5 [("CompanyID", VScalar (SInt 7)); ("Company", company7)]) [])
      = Ok None s
      /\ ReflectValueOf (RField company) (owners s) = Some (Zero (TStruct "Company"))
      /\ (GetIdentityFieldValuesMapFromValues [company5] (relFields company)).1
         !! ToStringKey (key_of (relFields company) company7) = None).
Proof.
  repeat split; try (eexists; repeat split); try (vm_compute; reflexivity).
  vm_compute. eexists. reflexivity.
Qed.

(** ** Values of an unsupported type *)

(** C8 (the code at the failing input): the Comments relationship has
    element type Comment; Append(Post{}) and Append(&Post{}) panic in
    appendToFieldValues, where Elem is asked of the struct type Post, before
    any error is recorded. *)
Lemma append_unsupported_struct_panics :
  Append [post] (handle comments user1 []) = Panic "reflect: Elem of invalid type"
  /\ Append [VPtr (TStruct "Post") (Some post)] (handle comments user1 [])
     = Panic "reflect: Elem of invalid type".
Proof.
  split; vm_compute; reflexivity.
Qed.

(** ** Replace and the rows that were related before *)

(** An update that assigns no column changes no row. *)
Lemma updateColumns_without_attrs clauses (rows : list clause.Row) :
  persistence.updateColumns clauses ∅ rows = rows.
Proof.
  unfold persistence.updateColumns.
  induction rows as [|r rows IH]; simpl; [reflexivity|].
  rewrite IH. unfold persistence.assign. rewrite map_fold_empty.
  destruct (clause.selects _ r); reflexivity.
Qed.

(** C2 (the code at the failing input): Replace(Account{ID: 10}) and then
    Replace(Account{ID: 11}) on the HasOne relationship of user 1.  Both
    updates that are to release the stale rows name no column to set to NULL
    (and no column to test), so the row of account 10 keeps pointing at user
    1 and the conditions Find queries with still select it. *)
Lemma replace_twice_keeps_first_row :
  exists s1 s2,
    Replace [account10] (handle account user1 []) = Ok None s1
    /\ Replace [account11] s1 = Ok None s2
    /\ issued s2
       = [persistence.Save (Some ["Account"]) (entity "User" 1 [("Account", account10)]);
          persistence.UpdateColumns (Some (TStruct "Account"))
            [clause.Where [clause.IN [] [[Some (SInt 1)]]]] ∅;
          persistence.Save (Some ["Account"]) (entity "User" 1 [("Account", account11)]);
          persistence.UpdateColumns (Some (TStruct "Account"))
            [clause.Where [clause.IN [] [[Some (SInt 1)]]]] ∅]
    /\ persistence.updateColumns [clause.Where [clause.IN [] [[Some (SInt 1)]]]] ∅
         [row 10 1; row 11 1] = [row 10 1; row 11 1]
    /\ clause.selects (ToQueryConditions account (owners s2)) (row 10 1) = true.
Proof.
  do 2 eexists. split; [vm_compute; reflexivity|].
  split; [vm_compute; reflexivity|].
  split; [vm_compute; reflexivity|].
  split; [apply updateColumns_without_attrs|].
  vm_compute; reflexivity.
Qed.

(** C9 (the code at the failing input): user 1 has comment 3; Clear, twice.
    Each call returns nil and leaves the Comments field empty, and the second
    call changes the owner no further; but the update each call issues
    assigns no column, so the row of comment 3 still points at user 1 and
    Find's conditions still select it. *)
Lemma clear_twice_keeps_related_row :
  exists s1 s2,
    Clear (handle comments
             (entity "User" 1 [("Comments", VSlice (TStruct "Comment") [comment3])]) [])
    = Ok None s1
    /\ ReflectValueOf (RField comments) (owners s1) = Some (VSlice (TStruct "Comment") [])
    /\ Clear s1 = Ok None s2
    /\ owners s2 = owners s1
    /\ issued s1
       = [persistence.Save (Some ["Comments"])
            (entity "User" 1 [("Comments", VSlice (TStruct "Comment") [])]);
          persistence.UpdateColumns (Some (TStruct "Comment"))
            [clause.Where [clause.IN [] [[Some (SInt 1)]]]] ∅]
    /\ persistence.updateColumns [clause.Where [clause.IN [] [[Some (SInt 1)]]]] ∅
         [row 3 1] = [row 3 1]
    /\ clause.selects (ToQueryConditions comments (owners s2)) (row 3 1) = true.
Proof.
  do 2 eexists. split; [vm_compute; reflexivity|].
  split; [vm_compute; reflexivity|].
  split; [vm_compute; reflexivity|].
  split; [vm_compute; reflexivity|].
  split; [vm_compute; reflexivity|].
  split; [apply updateColumns_without_attrs|].
  vm_compute; reflexivity.
Qed.

(** ** Append on a singular relationship *)

Lemma bind_ok {A B} (m : M A) (k : A -> M B) s a s1 :
  m s = Ok a s1 -> (m ≫= k) s = k a s1.
Proof. intros H. unfold mbind, M_bind. rewrite H. reflexivity. Qed.


Lemma mret_bind {A B} (a : A) (k : A -> M B) : (mret a ≫= k) = k a.
Proof. reflexivity. Qed.

Lemma field_get_put n x fs : field_get n (field_put n x fs) = Some x.
Proof.
  induction fs as [|[k v] fs IH]; simpl.
  - destruct (decide (n = n)); congruence.
  - destruct (decide (k = n)) as [->|Hne]; simpl.
    + destruct (decide (n = n)); congruence.
    + destruct (decide (k = n)); congruence.
Qed.

Lemma appendToRelations_singular s n fs x y clear :
  singular s -> owners s = VStruct n fs ->
  Kind x = Struct -> settable (RField (Relationship s)) x = Some y ->
  appendToRelations Whole x clear s
  = Ok tt (afterSet s (VStruct n (field_put (Name (RField (Relationship s))) y fs))).
Proof.
  intros Hs Ho Hk Hy.
  assert (Hset : fieldSet (RField (Relationship s)) Whole x s
                 = Ok None {| DB := persistence.with_value
                                      (VStruct n (field_put (Name (RField (Relationship s)))
                                                    y fs)) (DB s);
                              Relationship := Relationship s; Error := Error s |}).
  { unfold fieldSet, load, store, reflectValue, setReflectValue, must.
    unfold mbind, M_bind, mret, M_ret. fold (owners s). rewrite Ho.
    unfold Set_. rewrite Hy. reflexivity. }
  unfold appendToRelations. unfold mbind at 1, M_bind at 1, get at 1.
  assert (Hb : forall (A : Type) (a b : A),
            match Type_ (Relationship s) with
            | HasOne | BelongsTo => a
            | HasMany | Many2Many => b
            end = a).
  { intros A a b. destruct Hs as [-> | ->]; reflexivity. }
  rewrite Hb. destruct x as [|[]|xn xfs| |]; try discriminate Hk.
  cbn [Kind isSequence]. rewrite bool_decide_eq_true_2 by reflexivity.
  rewrite (bind_ok _ _ _ _ _ Hset). reflexivity.
Qed.

(** The loop of saveAssociation over the values, for a single owner: every
    value is stored in turn, so the field ends up holding the last one. *)
Lemma forEach_singular (c : nat -> bool) (l : list (nat * Value)) :
  forall s n fs,
    singular s -> owners s = VStruct n fs ->
    Forall (fun p => accepted s (Indirect p.2)) l ->
    exists s' fs',
      forEach l (fun '(idx, value) => appendToRelations Whole (Indirect value) (c idx)) s
      = Ok tt s'
      /\ Relationship s' = Relationship s
      /\ owners s' = VStruct n fs'
      /\ match last l with
         | Some p => field_get (Name (RField (Relationship s))) fs'
                     = settable (RField (Relationship s)) (Indirect p.2)
                     /\ Error s' = None
         | None => s' = s
         end.
Proof.
  induction l as [|[idx value] l IH]; intros s n fs Hs Ho Hl.
  - exists s, fs. simpl. auto.
  - apply Forall_cons in Hl as [Hv Hl]. simpl in Hv. destruct Hv as [Hk [y Hy]].
    pose proof (appendToRelations_singular s n fs (Indirect value) y (c idx)
                  Hs Ho Hk Hy) as Hstep.
    set (s1 := afterSet s _) in Hstep.
    destruct (IH s1 n (field_put (Name (RField (Relationship s))) y fs))
      as (s' & fs' & Hrun & Hrel & Ho' & Hlast); [exact Hs|reflexivity|exact Hl|].
    exists s', fs'. split; [|split; [|split]].
    + cbn [forEach]. rewrite (bind_ok _ _ _ _ _ Hstep). exact Hrun.
    + rewrite Hrel. reflexivity.
    + exact Ho'.
    + destruct l as [|q l'].
      * simpl in *. subst s'. unfold owners in Ho'. simpl in Ho'. injection Ho' as <-.
        split; [rewrite Hy; apply field_get_put|reflexivity].
      * change (last ((idx, value) :: q :: l')) with (last (q :: l')).
        destruct (last (q :: l')) eqn:E; [exact Hlast|].
        apply last_None in E. discriminate.
Qed.

Lemma call_ok c s :
  exists o s', call c s = Ok o s'
               /\ owners s' = owners s /\ Error s' = Error s
               /\ Relationship s' = Relationship s.
Proof.
  unfold call. destruct (persistence.run c (DB s)) as [db o] eqn:E.
  exists o. eexists. split; [reflexivity|].
  unfold persistence.run in E. injection E as <- <-.
  repeat split.
Qed.

Lemma saveAssociation_singular s n fs values v :
  singular s -> owners s = VStruct n fs ->
  Forall (fun x => accepted s (Indirect x)) (values ++ [v]) ->
  exists s' fs',
    saveAssociation true (values ++ [v]) s = Ok tt s'
    /\ Relationship s' = Relationship s
    /\ Error s' = None
    /\ owners s' = VStruct n fs'
    /\ field_get (Name (RField (Relationship s))) fs'
       = settable (RField (Relationship s)) (Indirect v).
Proof.
  intros Hs Ho Hall.
  destruct (forEach_singular (fun idx => true && bool_decide (idx = 0%nat))
              (imap (fun idx value => (idx, value)) (values ++ [v])) s n fs Hs Ho)
    as (s1 & fs1 & Hrun & Hrel & Ho1 & Hlast).
  { apply Forall_lookup_2. intros i [j x] Hi.
    apply list_lookup_imap_Some in Hi as (y & Hy & [= -> ->]).
    simpl. eapply Forall_lookup_1 in Hall; eauto. }
  rewrite imap_app in Hlast. cbn [imap] in Hlast. rewrite last_snoc in Hlast.
  simpl in Hlast. destruct Hlast as [Hget Herr].
  destruct (call_ok (persistence.Save None (VStruct n fs1)) s1)
    as (o1 & s2 & Hc1 & Ho2 & He2 & Hr2).
  destruct (call_ok (persistence.Save (Some (selectedColumns (Relationship s)))
                       (VStruct n fs1)) s1)
    as (o1' & s2' & Hc1' & Ho2' & He2' & Hr2').
  assert (Hlen : true && bool_decide (length (values ++ [v]) = 0%nat) = false).
  { apply bool_decide_eq_false_2. rewrite length_app. simpl. lia. }
  unfold saveAssociation.
  unfold owners in Ho, Ho1.
  unfold get, reflectValue, mbind, M_bind, mret, M_ret in *.
  rewrite Ho. cbn [Kind isSequence]. rewrite bool_decide_eq_true_2 by reflexivity.
  rewrite Hlen. rewrite Hrun. rewrite Ho1.
  unfold must, ValueOf, ReflectValueOf. cbn [Indirect mbind option_bind mret M_ret].
  match goal with |- context [IsZero ?x] => destruct (IsZero x) end; cbn [snd];
    rewrite Ho1.
  - rewrite Hc1. exists s2, fs1. unfold owners in *.
    rewrite Hr2, He2, Ho2. auto.
  - rewrite Hc1'. exists s2', fs1. unfold owners in *.
    rewrite Hr2', He2', Ho2'. auto.
Qed.

Lemma returns_handle_error {A} (m : M A) s r s' :
  (m ;; s0 ← get; mret (Error s0)) s = Ok r s' -> r = Error s'.
Proof.
  unfold mbind, M_bind, get, mret, M_ret.
  destruct (m s); [|discriminate]. intros [= <- <-]. reflexivity.
Qed.

(** Replace returns the error it leaves in the handle. *)
Lemma Replace_returns_handle_error values s r s' :
  Replace values s = Ok r s' -> r = Error s'.
Proof.
  unfold Replace. unfold mbind at 1, M_bind at 1, get at 1.
  destruct (Error s) eqn:He.
  - intros [= <- <-]. congruence.
  - unfold mbind at 1, M_bind at 1.
    destruct (saveAssociation true values s) as [[] s1|]; [|discriminate].
    unfold mbind at 1, M_bind at 1, reflectValue at 1.
    apply returns_handle_error.
Qed.

Lemma Append_singular_is_Replace s values :
  Error s = None -> singular s -> (0 < length values)%nat ->
  Append values s = Replace values s.
Proof.
  intros He Hs Hlen.
  unfold Append. unfold mbind at 1, M_bind at 1, get at 1. rewrite He.
  assert (Hbranch :
    match Type_ (Relationship s) with
    | HasOne | BelongsTo =>
        if bool_decide (0 < length values)%nat
        then e ← Replace values; setError e
        else mret tt
    | _ => saveAssociation false values
    end = (e ← Replace values; setError e)).
  { rewrite bool_decide_eq_true_2 by exact Hlen. destruct Hs as [-> | ->]; reflexivity. }
  rewrite Hbranch.
  unfold mbind, M_bind, get, mret, M_ret, setError.
  destruct (Replace values s) as [r s'|] eqn:Hr; [|reflexivity].
  apply Replace_returns_handle_error in Hr. subst r.
  destruct s'; reflexivity.
Qed.

Lemma Replace_singular_last_wins s n fs values v :
  Error s = None -> singular s -> owners s = VStruct n fs ->
  Forall (fun x => accepted s (Indirect x)) (values ++ [v]) ->
  exists s',
    Replace (values ++ [v]) s = Ok None s'
    /\ ReflectValueOf (RField (Relationship s)) (owners s')
       = settable (RField (Relationship s)) (Indirect v).
Proof.
  intros He Hs Ho Hall.
  destruct (saveAssociation_singular s n fs values v Hs Ho Hall)
    as (s1 & fs1 & Hsave & Hrel & Herr & Ho1 & Hget).
  destruct (call_ok (replaceHas (Relationship s) (owners s1)) s1)
    as (o & s2 & Hc & Ho2 & He2 & Hr2).
  assert (Hacc : accepted s (Indirect v)).
  { apply Forall_app in Hall as [_ Hv]. apply Forall_cons in Hv as [Hv _]. exact Hv. }
  destruct Hacc as [_ [y Hy]].
  assert (Hfield : forall s', owners s' = owners s1 ->
            ReflectValueOf (RField (Relationship s)) (owners s')
            = settable (RField (Relationship s)) (Indirect v)).
  { intros s' ->. rewrite Ho1. unfold ReflectValueOf. cbn [Indirect].
    rewrite Hget, Hy. reflexivity. }
  unfold Replace. unfold mbind, M_bind, get, reflectValue, mret, M_ret.
  rewrite He, Hsave. fold (owners s1).
  destruct Hs as [Ht | Ht]; rewrite Ht.
  - rewrite Hc. exists s2. split; [congruence|]. apply Hfield, Ho2.
  - exists s1. split; [congruence|]. apply Hfield. reflexivity.
Qed.

(** C6 (as amended): on a handle without error whose relationship is HasOne
    or BelongsTo, Append with at least one value is Replace with the same
    values; and for a single owner and struct values that the field's setter
    accepts (values of the field's type or, for a pointer field, of the type
    it points to) the values are stored one after the other, so that the
    field holds the last of them, as the setter stores it, afterwards, and
    Append returns nil. *)
Theorem append_singular_is_replace_last_wins (s : Association) (values : list Value) :
  Error s = None -> singular s -> (0 < length values)%nat ->
  Append values s = Replace values s
  /\ forall n fs,
       owners s = VStruct n fs ->
       Forall (fun x => accepted s (Indirect x)) values ->
       exists s' v,
         last values = Some v
         /\ Append values s = Ok None s'
         /\ ReflectValueOf (RField (Relationship s)) (owners s')
            = settable (RField (Relationship s)) (Indirect v).
Proof.
  intros He Hs Hlen.
  pose proof (Append_singular_is_Replace s values He Hs Hlen) as Heq.
  split; [exact Heq|].
  intros n fs Ho Hall.
  destruct values as [|v values _] using rev_ind; [simpl in Hlen; lia|].
  destruct (Replace_singular_last_wins s n fs values v He Hs Ho Hall) as (s' & Hr & Hf).
  exists s', v. rewrite last_snoc, Heq. auto.
Qed.

Lemma append_singular_is_replace_last_wins_witness :
  Append [user2; VPtr (TStruct "User") (Some (entity "User" 3 []))]
    (handle manager user1 [])
  = Replace [user2; VPtr (TStruct "User") (Some (entity "User" 3 []))]
      (handle manager user1 [])
  /\ exists s',
       Append [user2; VPtr (TStruct "User") (Some (entity "User" 3 []))]
         (handle manager user1 []) = Ok None s'
       /\ ReflectValueOf (RField manager) (owners s')
          = Some (VPtr (TStruct "User") (Some (entity "User" 3 []))).
Proof.
  destruct (append_singular_is_replace_last_wins (handle manager user1 [])
              [user2; VPtr (TStruct "User") (Some (entity "User" 3 []))])
    as [Heq Hlast].
  - reflexivity.
  - right. reflexivity.
  - simpl. lia.
  - split; [exact Heq|].
    destruct (Hlast "User" [("ID", VScalar (SInt 1))]) as (s' & v & Hv & Ha & Hf).
    + reflexivity.
    + repeat constructor; eexists; reflexivity.
    + injection Hv as <-. exists s'. split; [exact Ha|exact Hf].
Defined.

(** The same on a field of struct type: the field holds the last value
    itself. *)
Example append_last_wins_struct_field :
  exists s',
    Append [account10; account11] (handle account user1 []) = Ok None s'
    /\ ReflectValueOf (RField account) (owners s') = Some account11.
Proof. eexists. split; vm_compute; reflexivity. Qed.

(** C6 (counterexample): Append(Account{ID: 10}, Account{ID: 11}) on the
    HasOne relationship of one user leaves account 11 in the field, where
    Replace(Account{ID: 10}), the first value alone, leaves account 10. *)
Lemma append_keeps_last_not_first :
  (exists s,
      Append [account10; account11] (handle account user1 []) = Ok None s
      /\ ReflectValueOf (RField account) (owners s) = Some account11)
  /\ (exists s,
      Replace [account10] (handle account user1 []) = Ok None s
      /\ ReflectValueOf (RField account) (owners s) = Some account10)
  /\ account11 <> account10.
Proof.
  repeat split; try (eexists; repeat split); try (vm_compute; reflexivity).
  discriminate.
Qed.

(** ** Replace on a Many2Many relationship: the join rows it deletes *)

Lemma call_issues c s o s' :
  call c s = Ok o s' ->
  issued s' = (issued s ++ [c])%list /\ owners s' = owners s.
Proof.
  unfold call, persistence.run. intros [= <- <-]. split; reflexivity.
Qed.

Lemma mapM_must {A B} msg (f : A -> option B) (l : list A) :
  forall s ys s',
    mapM (fun x => must msg (f x)) l s = Ok ys s' ->
    s' = s /\ Forall2 (fun x y => f x = Some y) l ys.
Proof.
  induction l as [|x l IH]; intros s ys s'; cbn [mapM].
  - intros [= <- <-]. split; constructor.
  - unfold mbind at 1, M_bind at 1, must at 1.
    destruct (f x) as [y|] eqn:Hf; [|discriminate].
    cbn [mret M_ret]. unfold mbind at 1, M_bind at 1.
    destruct (mapM _ l s) as [ys' s1|] eqn:Hm; [|discriminate].
    intros [= <- <-]. apply IH in Hm as [-> Hall].
    split; [reflexivity|]. constructor; assumption.
Qed.

(** The condition generateConds builds for one owner holds only of join
    rows that are stale for that owner: the row carries the owner's key and
    its related key is none of the keys of that owner's own values. *)
Lemma generateConds_holds rel owner c r :
  generateConds rel owner = Some c -> clause.holds r c = true ->
  staleFor rel owner r.
Proof.
  unfold generateConds, staleFor, newValueKeys, ownerKeys, ownColumns, relColumns,
    ToQueryValues.
  destruct (ReflectValueOf (RField rel) owner) as [relValue|]; [|discriminate].
  cbn [mbind option_bind]. intros [= <-]. cbn [clause.holds forallb].
  rewrite !andb_true_iff, negb_true_iff.
  intros (Hown & Hrel & _).
  eexists. split; [reflexivity|]. split.
  - apply bool_decide_eq_true in Hown. exact Hown.
  - apply bool_decide_eq_false in Hrel. exact Hrel.
Qed.

(** What a Replace that returns has done on a Many2Many relationship:
    saveAssociation, then one delete on the join table under the literal
    conditions and one condition per bound owner. *)
Lemma Replace_many2many_inv s values r s' :
  Error s = None -> Type_ (Relationship s) = Many2Many ->
  Replace values s = Ok r s' ->
  exists s1 jt owned,
    saveAssociation true values s = Ok tt s1
    /\ RJoinTable (Relationship s) = Some jt
    /\ Forall2 (fun o c => generateConds (Relationship s) o = Some c)
               (boundOwners (owners s1)) owned
    /\ issued s'
       = (issued s1
          ++ [persistence.Delete
                [clause.Where (literalConds (Relationship s) jt ++ owned)]
                (JModelType jt)])%list
    /\ owners s' = owners s1.
Proof.
  intros He Ht. unfold Replace.
  unfold mbind at 1, M_bind at 1, get at 1. rewrite He.
  unfold mbind at 1, M_bind at 1.
  destruct (saveAssociation true values s) as [[] s1|]; [|discriminate].
  unfold mbind at 1, M_bind at 1, reflectValue at 1. rewrite Ht.
  unfold mbind at 1, M_bind at 1. unfold mbind at 1, M_bind at 1, must at 1.
  destruct (RJoinTable (Relationship s)) as [jt|]; [|discriminate].
  cbn [mret M_ret]. unfold mbind at 1, M_bind at 1.
  destruct (mapM _ (boundOwners _) s1) as [owned s1'|] eqn:Hm; [|discriminate].
  apply mapM_must in Hm as [-> Hall].
  unfold mbind at 1, M_bind at 1.
  destruct (call _ s1) as [o s2|] eqn:Hc; [|discriminate].
  apply call_issues in Hc as [Hi Ho].
  unfold mret, M_ret, mbind, M_bind, get. intros [= <- <-].
  exists s1, jt, owned. auto.
Qed.

(** ** What saveAssociation leaves alone

    A setter writes fields of the owners; whether the handle is bound to one
    struct or to a slice, and the length of that slice, never change.  And
    the only verb saveAssociation asks of the persistence layer is save. *)

#[global] Instance saved_refl : Reflexive saved.
Proof.
  intros s. split; [reflexivity|]. exists []. rewrite app_nil_r. auto.
Qed.

#[global] Instance saved_trans : Transitive saved.
Proof.
  intros s1 s2 s3 [H1 (l1 & E1 & F1)] [H2 (l2 & E2 & F2)]. split; [congruence|].
  exists (l1 ++ l2)%list. rewrite E2, E1, app_assoc. split; [reflexivity|].
  apply Forall_app; auto.
Qed.

(** Invariants of a run, for a relation between the handle before and the
    handle after that is reflexive and transitive. *)
Section Respects.
Context (R : relation Association) `{!Reflexive R} `{!Transitive R}.

Lemma respects_ret {A} (a : A) : respects R (mret a).
Proof. intros s b s' [= <- <-]. reflexivity. Qed.

Lemma respects_bind {A B} (m : M A) (k : A -> M B) :
  respects R m -> (forall a, respects R (k a)) -> respects R (m ≫= k).
Proof.
  intros Hm Hk s b s'. unfold mbind, M_bind.
  destruct (m s) as [a s1|] eqn:E; [|discriminate].
  intros H. apply Hk in H. apply Hm in E. etransitivity; eassumption.
Qed.

Lemma respects_panic {A} msg : respects R (panic msg : M A).
Proof. intros s a s'. discriminate. Qed.

Lemma respects_must {A} msg (o : option A) : respects R (must msg o).
Proof. destruct o; [apply respects_ret|apply respects_panic]. Qed.

Lemma respects_get : respects R get.
Proof. intros s a s' [= <- <-]. reflexivity. Qed.

Lemma respects_reflectValue : respects R reflectValue.
Proof. intros s a s' [= <- <-]. reflexivity. Qed.

Lemma respects_load src : respects R (load src).
Proof.
  unfold load. apply respects_bind; [apply respects_reflectValue|].
  intros rv. destruct src; [apply respects_ret|apply respects_must].
Qed.

Lemma respects_forEach {A} (l : list A) (body : A -> M unit) :
  (forall x, respects R (body x)) -> respects R (forEach l body).
Proof.
  intros Hb. induction l as [|x l IH]; cbn [forEach]; [apply respects_ret|].
  apply respects_bind; [apply Hb|]. intros _. exact IH.
Qed.

Lemma respects_foldM {A B} (body : B -> A -> M B) (l : list A) :
  (forall b x, respects R (body b x)) -> forall acc, respects R (foldM body acc l).
Proof.
  intros Hb. induction l as [|x l IH]; intros acc; cbn [foldM];
    [apply respects_ret|].
  apply respects_bind; [apply Hb|]. intros acc'. apply IH.
Qed.
End Respects.

Create HintDb keeps.

Lemma keeps_ret {A} (a : A) : keeps (mret a).
Proof. apply respects_ret, _. Qed.

Lemma keeps_panic {A} msg : keeps (panic msg : M A).
Proof. apply respects_panic. Qed.

Lemma keeps_must {A} msg (o : option A) : keeps (must msg o).
Proof. apply respects_must, _. Qed.

Lemma keeps_get : keeps get.
Proof. apply respects_get, _. Qed.

Lemma keeps_reflectValue : keeps reflectValue.
Proof. apply respects_reflectValue, _. Qed.

Lemma keeps_load src : keeps (load src).
Proof. apply respects_load; apply _. Qed.

Lemma keeps_bind {A B} (m : M A) (k : A -> M B) :
  keeps m -> (forall a, keeps (k a)) -> keeps (m ≫= k).
Proof. apply respects_bind, _. Qed.

Lemma keeps_forEach {A} (l : list A) (body : A -> M unit) :
  (forall x, keeps (body x)) -> keeps (forEach l body).
Proof. apply respects_forEach; apply _. Qed.

Lemma keeps_foldM {A B} (body : B -> A -> M B) (l : list A) :
  (forall b x, keeps (body b x)) -> forall acc, keeps (foldM body acc l).
Proof. apply respects_foldM; apply _. Qed.

#[global] Hint Resolve keeps_ret keeps_panic keeps_must keeps_get
  keeps_reflectValue keeps_load : keeps.

Lemma saved_same s s' :
  shape (owners s') = shape (owners s) -> issued s' = issued s -> saved s s'.
Proof.
  intros Hv Hi. split; [exact Hv|]. exists []. rewrite app_nil_r. auto.
Qed.

Lemma keeps_setError e : keeps (setError e).
Proof. intros s a s' [= <- <-]. apply saved_same; reflexivity. Qed.

Lemma keeps_save sel v : keeps (call (persistence.Save sel v)).
Proof.
  intros s o s' H. apply call_issues in H as [Hi Ho]. split; [congruence|].
  eexists. split; [exact Hi|]. repeat constructor.
Qed.

Lemma Set_shape f v x v' e : Set_ f v x = Some (v', e) -> shape v' = shape v.
Proof.
  unfold Set_. destruct (settable f x) as [y|].
  - destruct v as [| |n fs|t [[| |n fs| |]|]|]; cbn; try discriminate;
      intros [= <- <-]; reflexivity.
  - destruct (Indirect v); try discriminate. intros [= <- <-]. reflexivity.
Qed.

Lemma saved_owners s v :
  shape v = shape (owners s) ->
  saved s {| DB := persistence.with_value v (DB s);
             Relationship := Relationship s; Error := Error s |}.
Proof. intros Hv. apply saved_same; [exact Hv|reflexivity]. Qed.

Lemma keeps_fieldSet f src x : keeps (fieldSet f src x).
Proof.
  intros s e s'. unfold fieldSet, load, store, reflectValue, setReflectValue, must.
  unfold mbind, M_bind, mret, M_ret. destruct src as [|i].
  - destruct (Set_ f _ x) as [[v' e']|] eqn:E; [|discriminate].
    intros [= <- <-]. apply Set_shape in E. apply saved_owners, E.
  - fold (owners s). destruct (owners s) as [| | | |t l] eqn:Ho; cbn [Index];
      try discriminate.
    destruct (l !! i) as [v|]; [|discriminate].
    destruct (Set_ f v x) as [[v' e']|]; [|discriminate].
    cbn [fst snd]. unfold owners in Ho. rewrite Ho.
    intros [= <- <-]. apply saved_owners. fold (owners s) in Ho. rewrite Ho.
    unfold shape. cbn. rewrite length_insert. reflexivity.
Qed.

#[global] Hint Resolve keeps_setError keeps_save keeps_fieldSet : keeps.

(** Take a monadic term apart along its binds, conditionals and matches. *)
Ltac keeps_split :=
  repeat first
    [ progress auto with keeps
    | apply keeps_bind; [|intros]
    | apply keeps_forEach; intros
    | apply keeps_foldM; intros
    | match goal with
      | |- respects _ (if ?b then _ else _) => destruct b
      | |- respects _ (match ?x with _ => _ end) => destruct x
      end ].

Lemma keeps_appendToFieldValues elemType fieldValue ev :
  keeps (appendToFieldValues elemType fieldValue ev).
Proof. unfold appendToFieldValues. keeps_split. Qed.

#[global] Hint Resolve keeps_appendToFieldValues : keeps.

Lemma keeps_appendToRelations source rv clear :
  keeps (appendToRelations source rv clear).
Proof. unfold appendToRelations. keeps_split. Qed.

#[global] Hint Resolve keeps_appendToRelations : keeps.

Lemma keeps_saveAssociation clear values : keeps (saveAssociation clear values).
Proof. unfold saveAssociation. keeps_split. Qed.

(** ** Replace with values on a collection relationship *)







(** The same for a struct passed directly and for a non-empty slice passed
    as the one value. *)
Example many2many_replace_struct_or_slice_panics :
  Replace [tag7]
    (handle tags (entity "User" 1 [("Tags", VSlice (TStruct "Tag") [tag5; tag6])]) [])
  = Panic "reflect: call of Append on a Value that is no slice"
  /\ Replace [VSlice (TStruct "Tag") [tag7]]
       (handle tags (entity "User" 1 [("Tags", VSlice (TStruct "Tag") [tag5; tag6])]) [])
     = Panic "reflect: call of Append on a Value that is no slice".
Proof. split; vm_compute; reflexivity. Qed.

(** The condition each owner contributes pairs that owner's key with the
    keys of its own values: user 1 with tag 5, user 2 with tag 6. *)
Example generateConds_per_owner :
  generateConds tags (entity "User" 1 [("Tags", VSlice (TStruct "Tag") [tag5])])
  = Some (clause.And [clause.IN ["user_id"] [[Some (SInt 1)]];
                      clause.Not (clause.IN ["tag_id"] [[Some (SInt 5)]])])
  /\ generateConds tags (entity "User" 2 [("Tags", VSlice (TStruct "Tag") [tag6])])
     = Some (clause.And [clause.IN ["user_id"] [[Some (SInt 2)]];
                         clause.Not (clause.IN ["tag_id"] [[Some (SInt 6)]])]).
Proof. split; vm_compute; reflexivity. Qed.

(** ** Delete: the two outcomes of the persistence call *)

(** X5: when the update or delete that Delete issues fails, Delete returns
    (it does not panic), hands the failure to the handle and does not touch
    the owners, whatever they and the values are. *)
Lemma delete_failure_keeps_owners s values c o rest e :
  Error s = None ->
  deleteCall (Relationship s) (owners s) values = Some c ->
  persistence.script (DB s) = o :: rest ->
  persistence.failure o = Some e ->
  exists s',
    Delete values s = Ok (Some e) s'
    /\ Error s' = Some e
    /\ owners s' = owners s
    /\ issued s' = (issued s ++ [c])%list.
Proof.
  intros He Hc Hs Hf. unfold Delete.
  unfold mbind, M_bind, get, reflectValue, must, mret, M_ret.
  rewrite He. fold (owners s). rewrite Hc.
  unfold call, persistence.run. rewrite Hs. cbn. rewrite Hf. cbn.
  eexists. repeat split.
Qed.



Lemma fieldSet_whole_struct f n fs x s :
  owners s = VStruct n fs -> TypeOf x = Some (FieldType f) ->
  fieldSet f Whole x s
  = Ok None {| DB := persistence.with_value (VStruct n (field_put (Name f) x fs)) (DB s);
               Relationship := Relationship s; Error := Error s |}.
Proof.
  intros Ho Ht.
  unfold fieldSet, load, store, reflectValue, setReflectValue, must.
  unfold mbind, M_bind, mret, M_ret. fold (owners s). rewrite Ho.
  unfold Set_, settable. rewrite Ht. unfold AssignableTo.
  rewrite bool_decide_eq_true_2 by reflexivity. reflexivity.
Qed.


(** ** Clear on a single owner *)

Lemma type_not_own_pointer (t : type) : TPtr t <> t.
Proof. induction t; congruence. Qed.

(** The setter stores the zero value when it is handed reflect.New of the
    field's type and the field is no pointer. *)
Lemma fieldSet_whole_new f n fs s :
  owners s = VStruct n fs ->
  fieldSet f Whole (New (FieldType f)) s
  = Ok None {| DB := persistence.with_value
                       (VStruct n (field_put (Name f) (Zero (FieldType f)) fs)) (DB s);
               Relationship := Relationship s; Error := Error s |}.
Proof.
  intros Ho.
  unfold fieldSet, load, store, reflectValue, setReflectValue, must.
  unfold mbind, M_bind, mret, M_ret. fold (owners s). rewrite Ho.
  unfold Set_, settable, New. cbn [TypeOf]. unfold AssignableTo.
  rewrite bool_decide_eq_false_2 by apply type_not_own_pointer.
  rewrite bool_decide_eq_true_2 by reflexivity. reflexivity.
Qed.

Lemma field_put_twice n x fs : field_put n x (field_put n x fs) = field_put n x fs.
Proof.
  induction fs as [|[k v] fs IH]; simpl.
  - destruct (decide (n = n)); congruence.
  - destruct (decide (k = n)) as [->|Hne]; simpl.
    + destruct (decide (n = n)); congruence.
    + destruct (decide (k = n)); congruence.
Qed.

(** On a handle without error that is bound to one owner, Clear returns nil
    and leaves the zero value in the relationship field (the field's type
    being no pointer type). *)
Lemma clear_empties_field s n fs :
  Error s = None -> owners s = VStruct n fs ->
  (Type_ (Relationship s) = Many2Many -> is_Some (RJoinTable (Relationship s))) ->
  IndirectFieldType (RField (Relationship s)) = FieldType (RField (Relationship s)) ->
  exists s',
    Clear s = Ok None s'
    /\ Error s' = None
    /\ Relationship s' = Relationship s
    /\ owners s'
       = VStruct n (field_put (Name (RField (Relationship s)))
                      (Zero (FieldType (RField (Relationship s)))) fs).
Proof.
  intros He Ho Hjt Hind.
  set (fs' := field_put (Name (RField (Relationship s)))
                (Zero (FieldType (RField (Relationship s)))) fs).
  assert (Hsave : exists s1,
    saveAssociation true [] s = Ok tt s1
    /\ Error s1 = None /\ Relationship s1 = Relationship s
    /\ owners s1 = VStruct n fs').
  { pose proof (fieldSet_whole_new (RField (Relationship s)) n fs s Ho) as Hset.
    set (s0 := {| DB := _ |}) in Hset.
    destruct (call_ok (persistence.Save None (VStruct n fs')) s0)
      as (o1 & s2 & Hc1 & Ho2 & He2 & Hr2).
    destruct (call_ok (persistence.Save (Some (selectedColumns (Relationship s)))
                         (VStruct n fs')) s0)
      as (o1' & s2' & Hc1' & Ho2' & He2' & Hr2').
    unfold saveAssociation.
    unfold mbind at 1, M_bind at 1, get at 1.
    unfold mbind at 1, M_bind at 1, reflectValue at 1. fold (owners s). rewrite Ho.
    cbn [Kind isSequence]. rewrite bool_decide_eq_true_2 by reflexivity.
    cbn [length andb]. rewrite bool_decide_eq_true_2 by reflexivity.
    rewrite Hind. unfold mbind, M_bind, mret, M_ret. rewrite Hset.
    cbn [imap forEach mret M_ret]. cbn [reflectValue].
    change (persistence.ReflectValue (persistence.Statement_ (DB s0)))
      with (VStruct n fs').
    unfold must, ValueOf, ReflectValueOf. cbn [Indirect mbind option_bind mret M_ret].
    match goal with |- context [IsZero ?x] => destruct (IsZero x) end; cbn [snd];
      change (persistence.ReflectValue (persistence.Statement_ (DB s0)))
        with (VStruct n fs').
    - rewrite Hc1. exists s2. rewrite He2, Hr2, Ho2. auto.
    - rewrite Hc1'. exists s2'. rewrite He2', Hr2', Ho2'. auto. }
  destruct Hsave as (s1 & Hsave & He1 & Hr1 & Ho1).
  unfold Clear, Replace.
  unfold mbind at 1, M_bind at 1, get at 1. rewrite He.
  unfold mbind at 1, M_bind at 1. rewrite Hsave.
  unfold mbind at 1, M_bind at 1, reflectValue at 1. fold (owners s1). rewrite Ho1.
  assert (Hcall : forall c, exists s',
    ((call c ≫= λ _ : persistence.Outcome, mret ())
     ≫= λ _ : (), get ≫= λ s'0 : Association, mret (Error s'0)) s1 = Ok None s'
    /\ Error s' = None /\ Relationship s' = Relationship s
    /\ owners s' = VStruct n fs').
  { intros c. destruct (call_ok c s1) as (o & s2 & Hc & Ho2 & He2 & Hr2).
    exists s2. unfold mbind, M_bind, get, mret, M_ret. rewrite Hc.
    rewrite He2, He1, Hr2, Hr1, Ho2, Ho1. auto. }
  destruct (Type_ (Relationship s)) eqn:Ht.
  - apply Hcall.
  - apply Hcall.
  - exists s1. unfold mbind, M_bind, get, mret, M_ret. rewrite He1. auto.
  - destruct (Hjt eq_refl) as [jt Hj]. rewrite Hj.
    assert (Hg : exists c, generateConds (Relationship s) (VStruct n fs') = Some c).
    { unfold generateConds, ReflectValueOf, ToQueryValues.
      cbn [Indirect mbind option_bind]. eauto. }
    destruct Hg as [c Hg].
    unfold boundOwners. cbn [Kind isSequence].
    rewrite bool_decide_eq_true_2 by reflexivity.
    cbn [must mret M_ret mapM]. unfold mbind at 2, M_bind at 2.
    unfold mbind at 2, M_bind at 2. rewrite Hg. cbn [must mret M_ret].
    unfold mbind at 1, M_bind at 1. unfold mbind at 1, M_bind at 1.
    apply Hcall.
Qed.

(** X7: Clear, twice, on a handle without error bound to one owner (the
    field's type being no pointer type): both calls return nil, the field
    holds its zero value after the first, and the second leaves the owner as
    the first left it. *)
Lemma clear_twice_same_owners s n fs :
  Error s = None -> owners s = VStruct n fs ->
  (Type_ (Relationship s) = Many2Many -> is_Some (RJoinTable (Relationship s))) ->
  IndirectFieldType (RField (Relationship s)) = FieldType (RField (Relationship s)) ->
  exists s1 s2,
    Clear s = Ok None s1
    /\ Clear s1 = Ok None s2
    /\ ReflectValueOf (RField (Relationship s)) (owners s1)
       = Some (Zero (FieldType (RField (Relationship s))))
    /\ owners s2 = owners s1.
Proof.
  intros He Ho Hjt Hind.
  destruct (clear_empties_field s n fs He Ho Hjt Hind) as (s1 & Hc1 & He1 & Hr1 & Ho1).
  destruct (clear_empties_field s1 n _ He1 Ho1) as (s2 & Hc2 & _ & _ & Ho2).
  { rewrite Hr1. exact Hjt. }
  { rewrite Hr1. exact Hind. }
  exists s1, s2. split; [exact Hc1|]. split; [exact Hc2|]. split.
  - rewrite Ho1. unfold ReflectValueOf. cbn [Indirect]. rewrite field_get_put.
    reflexivity.
  - rewrite Ho2, Ho1, Hr1. rewrite field_put_twice. reflexivity.
Qed.

(** * Further properties of the engine *)

(** ** What the in-memory steps leave alone *)

#[global] Instance quiet_refl : Reflexive quiet.
Proof. intros s. repeat split. Qed.

#[global] Instance quiet_trans : Transitive quiet.
Proof.
  intros s1 s2 s3 (A1 & B1 & C1 & D1 & E1 & F1) (A2 & B2 & C2 & D2 & E2 & F2).
  repeat split; congruence.
Qed.

Create HintDb quiet.

Lemma quiet_ret {A} (a : A) : respects quiet (mret a).
Proof. apply respects_ret, _. Qed.

Lemma quiet_panic {A} msg : respects quiet (panic msg : M A).
Proof. apply respects_panic. Qed.

Lemma quiet_must {A} msg (o : option A) : respects quiet (must msg o).
Proof. apply respects_must, _. Qed.

Lemma quiet_get : respects quiet get.
Proof. apply respects_get, _. Qed.

Lemma quiet_reflectValue : respects quiet reflectValue.
Proof. apply respects_reflectValue, _. Qed.

Lemma quiet_load src : respects quiet (load src).
Proof. apply respects_load; apply _. Qed.

Lemma quiet_bind {A B} (m : M A) (k : A -> M B) :
  respects quiet m -> (forall a, respects quiet (k a)) -> respects quiet (m ≫= k).
Proof. apply respects_bind, _. Qed.

Lemma quiet_forEach {A} (l : list A) (body : A -> M unit) :
  (forall x, respects quiet (body x)) -> respects quiet (forEach l body).
Proof. apply respects_forEach; apply _. Qed.

Lemma quiet_foldM {A B} (body : B -> A -> M B) (l : list A) :
  (forall b x, respects quiet (body b x)) ->
  forall acc, respects quiet (foldM body acc l).
Proof. apply respects_foldM; apply _. Qed.

Lemma quiet_setError e : respects quiet (setError e).
Proof. intros s a s' [= <- <-]. repeat split. Qed.

Lemma quiet_owners s v :
  shape v = shape (owners s) ->
  quiet s {| DB := persistence.with_value v (DB s);
             Relationship := Relationship s; Error := Error s |}.
Proof. intros Hv. repeat split. exact Hv. Qed.

Lemma quiet_fieldSet f src x : respects quiet (fieldSet f src x).
Proof.
  intros s e s'. unfold fieldSet, load, store, reflectValue, setReflectValue, must.
  unfold mbind, M_bind, mret, M_ret. destruct src as [|i].
  - destruct (Set_ f _ x) as [[v' e']|] eqn:E; [|discriminate].
    intros [= <- <-]. apply Set_shape in E. apply quiet_owners, E.
  - fold (owners s). destruct (owners s) as [| | | |t l] eqn:Ho; cbn [Index];
      try discriminate.
    destruct (l !! i) as [v|]; [|discriminate].
    destruct (Set_ f v x) as [[v' e']|]; [|discriminate].
    cbn [fst snd]. unfold owners in Ho. rewrite Ho.
    intros [= <- <-]. apply quiet_owners. fold (owners s) in Ho. rewrite Ho.
    unfold shape. cbn. rewrite length_insert. reflexivity.
Qed.

#[global] Hint Resolve quiet_ret quiet_panic quiet_must quiet_get quiet_reflectValue
  quiet_load quiet_setError quiet_fieldSet : quiet.

Ltac quiet_split :=
  repeat first
    [ progress auto with quiet
    | apply quiet_bind; [|intros]
    | apply quiet_forEach; intros
    | apply quiet_foldM; intros
    | match goal with
      | |- respects _ (if ?b then _ else _) => destruct b
      | |- respects _ (match ?x with _ => _ end) => destruct x
      end ].

Lemma quiet_appendToFieldValues elemType fieldValue ev :
  respects quiet (appendToFieldValues elemType fieldValue ev).
Proof. unfold appendToFieldValues. quiet_split. Qed.

#[global] Hint Resolve quiet_appendToFieldValues : quiet.

Lemma quiet_appendToRelations source rv clear :
  respects quiet (appendToRelations source rv clear).
Proof. unfold appendToRelations. quiet_split. Qed.

#[global] Hint Resolve quiet_appendToRelations : quiet.

Lemma bind_inv {A B} (m : M A) (k : A -> M B) s b s' :
  (m ≫= k) s = Ok b s' -> exists a s1, m s = Ok a s1 /\ k a s1 = Ok b s'.
Proof.
  unfold mbind, M_bind. destruct (m s) as [a s1|]; [|discriminate]. eauto.
Qed.

Lemma must_inv {A} msg (o : option A) s a s' :
  must msg o s = Ok a s' -> o = Some a /\ s' = s.
Proof. destruct o; [|discriminate]. intros [= <- <-]. auto. Qed.

(** ** saveAssociation: one save, and which *)

(** saveAssociation, when it returns, has worked on the owners in memory and
    then asked the persistence layer for one save, of the owners as they then
    are; with [hasZero] the save is a full one, otherwise it is restricted to
    the selected columns.  For a single owner [hasZero] is whether its primary
    key is zero. *)
Lemma saveAssociation_inv clear values s s' :
  saveAssociation clear values s = Ok tt s' ->
  exists s1 (hasZero : bool) o,
    quiet s s1
    /\ call (persistence.Save
               (if hasZero then None else Some (selectedColumns (Relationship s)))
               (owners s1)) s1 = Ok o s'
    /\ (Kind (owners s) = Struct -> zeroKey s (owners s1) = Some hasZero).
Proof.
  unfold saveAssociation.
  unfold mbind at 1, M_bind at 1, get at 1.
  unfold mbind at 1, M_bind at 1, reflectValue at 1. fold (owners s).
  intros H. apply bind_inv in H as (hz & s1 & HB & H).
  assert (Hq : quiet s s1).
  { match type of HB with ?B s = _ =>
      assert (Hr : respects quiet B) by quiet_split end.
    exact (Hr _ _ _ HB). }
  exists s1, hz.
  unfold mbind at 1, M_bind at 1, reflectValue at 1 in H. fold (owners s1) in H.
  apply bind_inv in H as (o & s2 & Hc & H). injection H as <-.
  exists o. split; [exact Hq|]. split.
  - destruct hz; exact Hc.
  - intros Hk. destruct (owners s) as [|[]|n fs| |]; try discriminate Hk.
    cbn [Kind isSequence] in HB. rewrite bool_decide_eq_true_2 in HB by reflexivity.
    apply bind_inv in HB as (? & sa & _ & HB).
    apply bind_inv in HB as (? & sb & _ & HB).
    unfold mbind at 1, M_bind at 1, reflectValue at 1 in HB. fold (owners sb) in HB.
    apply bind_inv in HB as (z & sc & Hz & HB).
    apply must_inv in Hz as [Hz ->]. injection HB as <- <-.
    unfold zeroKey. rewrite Hz. reflexivity.
Qed.

(** The save of saveAssociation, for the proofs below. *)
Lemma saveAssociation_one_save
    (clear : bool) (values : list Value) (s s' : Association) :
  saveAssociation clear values s = Ok tt s' ->
  exists select,
    issued s' = (issued s ++ [persistence.Save select (owners s')])%list
    /\ (select = None \/ select = Some (selectedColumns (Relationship s)))
    /\ shape (owners s') = shape (owners s)
    /\ Relationship s' = Relationship s
    /\ (Kind (owners s) = Struct ->
        (select = None <-> zeroKey s (owners s') = Some true)).
Proof.
  intros H. apply saveAssociation_inv in H as (s1 & hz & o & Hq & Hc & Hz).
  destruct Hq as (Hcalls & _ & _ & _ & Hrel & Hshape).
  destruct (call_ok (persistence.Save
                       (if hz then None else Some (selectedColumns (Relationship s)))
                       (owners s1)) s1) as (o' & s2 & Hc' & Ho & _ & Hr).
  rewrite Hc in Hc'. injection Hc' as <- <-.
  apply call_issues in Hc as [Hi _].
  exists (if hz then None else Some (selectedColumns (Relationship s))).
  rewrite Ho. split; [rewrite Hi; unfold issued; rewrite Hcalls; reflexivity|].
  split; [destruct hz; auto|]. split; [exact Hshape|]. split; [congruence|].
  intros Hk. rewrite (Hz Hk). destruct hz; split; congruence.
Qed.

(** X1: saveAssociation, whenever it returns, has asked the persistence layer
    for exactly one thing: a save of the owners as it leaves them, either of
    all columns or of the selected columns.  It keeps the owners' shape and
    the handle's relationship.  For a single owner the save covers all
    columns exactly when that owner's primary key is zero. *)
Theorem saveAssociation_issues_one_save
    (clear : bool) (values : list Value) (s s' : Association) :
  saveAssociation clear values s = Ok tt s' ->
  exists select,
    issued s' = (issued s ++ [persistence.Save select (owners s')])%list
    /\ (select = None \/ select = Some (selectedColumns (Relationship s)))
    /\ shape (owners s') = shape (owners s)
    /\ Relationship s' = Relationship s
    /\ (Kind (owners s) = Struct ->
        (select = None <-> zeroKey s (owners s') = Some true)).
Proof. exact (saveAssociation_one_save clear values s s'). Qed.

Lemma saveAssociation_issues_one_save_witness :
  exists s',
    saveAssociation false [comment3] (handle comments user1 []) = Ok tt s'
    /\ exists select,
         issued s' = ([] ++ [persistence.Save select (owners s')])%list
         /\ (select = None \/ select = Some (selectedColumns comments))
         /\ shape (owners s') = shape user1
         /\ Relationship s' = comments
         /\ (Kind user1 = Struct ->
             (select = None
              <-> zeroKey (handle comments user1 []) (owners s') = Some true)).
Proof.
  eexists. split; [vm_compute; reflexivity|].
  apply (saveAssociation_issues_one_save false [comment3]
           (handle comments user1 [])).
  vm_compute. reflexivity.
Defined.

(** ** Append on a collection relationship issues its save and nothing else *)

(** X2: Append on a HasMany or Many2Many relationship, entered without
    error, asks the persistence layer for one save when it returns: no update
    and no delete of what was related before.  The error it returns is the
    one it leaves in the handle. *)
Theorem append_collection_only_saves
    (values : list Value) (s : Association) (r : option error) (s' : Association) :
  Error s = None ->
  Type_ (Relationship s) = HasMany \/ Type_ (Relationship s) = Many2Many ->
  Append values s = Ok r s' ->
  r = Error s'
  /\ exists select,
       issued s' = (issued s ++ [persistence.Save select (owners s')])%list.
Proof.
  intros He Ht. unfold Append.
  unfold mbind at 1, M_bind at 1, get at 1. rewrite He.
  assert (Hb : match Type_ (Relationship s) with
               | HasOne | BelongsTo =>
                   if bool_decide (0 < length values)%nat
                   then e ← Replace values; setError e
                   else mret ()
               | _ => saveAssociation false values
               end = saveAssociation false values).
  { destruct Ht as [-> | ->]; reflexivity. }
  rewrite Hb. intros H.
  apply bind_inv in H as ([] & s1 & Hs & H).
  unfold mbind, M_bind, get, mret, M_ret in H. injection H as <- <-.
  split; [reflexivity|].
  apply saveAssociation_one_save in Hs as (select & Hi & _).
  exists select. exact Hi.
Qed.

Lemma append_collection_only_saves_witness :
  exists r s',
    Append [tag5] (handle tags (entity "User" 1 [("Tags", VSlice (TStruct "Tag") [tag6])]) [])
    = Ok r s'
    /\ r = Error s'
    /\ exists select,
         issued s' = ([] ++ [persistence.Save select (owners s')])%list.
Proof.
  do 2 eexists. split; [vm_compute; reflexivity|].
  apply (append_collection_only_saves [tag5]
           (handle tags (entity "User" 1 [("Tags", VSlice (TStruct "Tag") [tag6])]) [])).
  - reflexivity.
  - right. reflexivity.
  - vm_compute. reflexivity.
Defined.

(** ** The calls of Replace, in their order *)

Lemma nullMap_null cols k v :
  nullMap cols !! k = Some v -> v = None /\ k ∈ cols.
Proof.
  unfold nullMap.
  assert (H : forall m : gmap string (option Scalar),
             foldl (fun m c => <[c := None]> m) m cols !! k = Some v ->
             m !! k = Some v \/ (v = None /\ k ∈ cols)).
  { induction cols as [|c cols IH]; intros m; cbn [foldl]; [auto|].
    intros Hl. apply IH in Hl as [Hl | [-> Hin]].
    - apply lookup_insert_Some in Hl as [[<- <-] | [_ Hl]]; [|auto].
      right. split; [reflexivity|apply list_elem_of_here].
    - right. split; [reflexivity|apply list_elem_of_further, Hin]. }
  intros Hl. apply H in Hl as [Hl | Hl]; [|exact Hl].
  rewrite lookup_empty in Hl. discriminate.
Qed.

(** X3: a Replace that was entered without error and returns has issued, in
    this order: one save of the owners; then, for HasOne and HasMany, one
    update on the related model that assigns nothing but NULL, for Many2Many
    one delete on the join table, and for BelongsTo nothing more.  It returns
    the error it leaves in the handle. *)
Theorem replace_call_sequence
    (values : list Value) (s : Association) (r : option error) (s' : Association) :
  Error s = None ->
  Replace values s = Ok r s' ->
  r = Error s'
  /\ exists select,
       match Type_ (Relationship s) with
       | BelongsTo =>
           issued s' = (issued s ++ [persistence.Save select (owners s')])%list
       | HasOne | HasMany =>
           exists clauses attrs,
             issued s'
             = (issued s
                ++ [persistence.Save select (owners s');
                    persistence.UpdateColumns
                      (Some (ModelType (FieldSchema (Relationship s)))) clauses attrs])%list
             /\ (forall k v, attrs !! k = Some v -> v = None)
       | Many2Many =>
           exists jt conds,
             RJoinTable (Relationship s) = Some jt
             /\ issued s'
                = (issued s
                   ++ [persistence.Save select (owners s');
                       persistence.Delete [clause.Where conds] (JModelType jt)])%list
       end.
Proof.
  intros He Hr. split; [eapply Replace_returns_handle_error, Hr|].
  revert Hr. unfold Replace.
  unfold mbind at 1, M_bind at 1, get at 1. rewrite He.
  intros H. apply bind_inv in H as ([] & s1 & Hs & H).
  apply saveAssociation_one_save in Hs as (select & Hi & _ & _ & _ & _).
  unfold mbind at 1, M_bind at 1, reflectValue at 1 in H. fold (owners s1) in H.
  apply bind_inv in H as ([] & s2 & H & Hend).
  unfold mbind, M_bind, get, mret, M_ret in Hend. injection Hend as _ <-.
  exists select. destruct (Type_ (Relationship s)).
  - apply bind_inv in H as (o & s3 & Hc & [= <-]).
    apply call_issues in Hc as [Hc Ho]. rewrite Ho.
    eexists _, _. split; [rewrite Hc, Hi, <- app_assoc; reflexivity|].
    intros k v Hl. apply nullMap_null in Hl. tauto.
  - apply bind_inv in H as (o & s3 & Hc & [= <-]).
    apply call_issues in Hc as [Hc Ho]. rewrite Ho.
    eexists _, _. split; [rewrite Hc, Hi, <- app_assoc; reflexivity|].
    intros k v Hl. apply nullMap_null in Hl. tauto.
  - injection H as <-. exact Hi.
  - apply bind_inv in H as (jt & s3 & Hj & H). apply must_inv in Hj as [Hj ->].
    apply bind_inv in H as (owned & s3 & Hm & H). apply mapM_must in Hm as [-> _].
    apply bind_inv in H as (o & s3 & Hc & [= <-]).
    apply call_issues in Hc as [Hc Ho]. rewrite Ho.
    exists jt. eexists. split; [exact Hj|].
    rewrite Hc, Hi, <- app_assoc. reflexivity.
Qed.

Lemma replace_call_sequence_witness :
  exists r s',
    Replace [account10] (handle account user1 []) = Ok r s'
    /\ r = Error s'
    /\ exists select clauses attrs,
         issued s'
         = ([] ++ [persistence.Save select (owners s');
                   persistence.UpdateColumns (Some (TStruct "Account")) clauses attrs])%list
         /\ (forall k v, attrs !! k = Some v -> v = None).
Proof.
  do 2 eexists. split; [vm_compute; reflexivity|].
  destruct (replace_call_sequence [account10] (handle account user1 [])
              None _ eq_refl eq_refl) as [Hr [select Hcalls]].
  split; [exact Hr|]. exists select. exact Hcalls.
Defined.

(** ** Delete: one call, and its error is the result *)

#[global] Instance silent_refl : Reflexive silent.
Proof. intros s. split; reflexivity. Qed.

#[global] Instance silent_trans : Transitive silent.
Proof.
  intros s1 s2 s3 [Q1 E1] [Q2 E2]. split; [etransitivity; eassumption|congruence].
Qed.

Create HintDb silent.

Lemma silent_ret {A} (a : A) : respects silent (mret a).
Proof. apply respects_ret, _. Qed.

Lemma silent_panic {A} msg : respects silent (panic msg : M A).
Proof. apply respects_panic. Qed.

Lemma silent_must {A} msg (o : option A) : respects silent (must msg o).
Proof. apply respects_must, _. Qed.

Lemma silent_load src : respects silent (load src).
Proof. apply respects_load; apply _. Qed.

Lemma silent_bind {A B} (m : M A) (k : A -> M B) :
  respects silent m -> (forall a, respects silent (k a)) -> respects silent (m ≫= k).
Proof. apply respects_bind, _. Qed.

Lemma silent_forEach {A} (l : list A) (body : A -> M unit) :
  (forall x, respects silent (body x)) -> respects silent (forEach l body).
Proof. apply respects_forEach; apply _. Qed.

Lemma silent_foldM {A B} (body : B -> A -> M B) (l : list A) :
  (forall b x, respects silent (body b x)) ->
  forall acc, respects silent (foldM body acc l).
Proof. apply respects_foldM; apply _. Qed.

Lemma silent_mapM {A B} (f : A -> M B) (l : list A) :
  (forall x, respects silent (f x)) -> respects silent (mapM f l).
Proof.
  intros Hf. induction l as [|x l IH]; cbn [mapM]; [apply silent_ret|].
  apply silent_bind; [apply Hf|]. intros y.
  apply silent_bind; [exact IH|]. intros ys. apply silent_ret.
Qed.

Lemma silent_fieldSet f src x : respects silent (fieldSet f src x).
Proof.
  intros s e s' H. split; [exact (quiet_fieldSet f src x s e s' H)|].
  revert H. unfold fieldSet, load, store, reflectValue, setReflectValue, must.
  unfold mbind, M_bind, mret, M_ret. destruct src as [|i].
  - destruct (Set_ f _ x) as [[v' e']|]; [|discriminate].
    intros [= <- <-]. reflexivity.
  - destruct (Index _ i) as [v|]; [|discriminate]. cbn.
    destruct (Set_ f v x) as [[v' e']|]; [|discriminate]. cbn.
    destruct (persistence.ReflectValue _); try discriminate.
    intros [= <- <-]. reflexivity.
Qed.

#[global] Hint Resolve silent_ret silent_panic silent_must silent_load
  silent_fieldSet : silent.

Ltac silent_split :=
  repeat first
    [ progress auto with silent
    | apply silent_bind; [|intros]
    | apply silent_forEach; intros
    | apply silent_foldM; intros
    | apply silent_mapM; intros
    | match goal with
      | |- respects _ (if ?b then _ else _) => destruct b
      | |- respects _ (match ?x with _ => _ end) => destruct x
      end ].

Lemma silent_cleanUpDeletedRelations rel relValuesMap source :
  respects silent (cleanUpDeletedRelations rel relValuesMap source).
Proof. unfold cleanUpDeletedRelations, fieldKey. silent_split. Qed.

Lemma call_spec c s o s' :
  call c s = Ok o s' ->
  o = default persistence.success (head (persistence.script (DB s)))
  /\ persistence.Error (DB s') = persistence.failure o
  /\ issued s' = (issued s ++ [c])%list
  /\ owners s' = owners s
  /\ Error s' = Error s.
Proof.
  unfold call, persistence.run. intros [= <- <-]. repeat split.
Qed.

(** X4: a Delete that was entered without error and returns has issued
    exactly one call, the update or delete built from the values; what it
    returns, and leaves in the handle, is the error of that call; the owners
    keep their shape, and when the call failed they are untouched. *)
Theorem delete_one_call
    (values : list Value) (s : Association) (r : option error) (s' : Association) :
  Error s = None ->
  Delete values s = Ok r s' ->
  exists c,
    deleteCall (Relationship s) (owners s) values = Some c
    /\ issued s' = (issued s ++ [c])%list
    /\ r = persistence.failure
             (default persistence.success (head (persistence.script (DB s))))
    /\ Error s' = r
    /\ shape (owners s') = shape (owners s)
    /\ (r <> None -> owners s' = owners s).
Proof.
  intros He. unfold Delete.
  unfold mbind at 1, M_bind at 1, get at 1. rewrite He.
  unfold mbind at 1, M_bind at 1, reflectValue at 1. fold (owners s).
  intros H. apply bind_inv in H as (c & s0 & Hc & H).
  apply must_inv in Hc as [Hc ->].
  apply bind_inv in H as (o & s1 & Hcall & H).
  apply call_spec in Hcall as (-> & Herr & Hi & Ho & He1).
  unfold mbind at 1, M_bind at 1, get at 1 in H. rewrite Herr in H.
  apply bind_inv in H as ([] & s2 & H & Hend).
  unfold mbind, M_bind, get, mret, M_ret in Hend. injection Hend as <- <-.
  exists c. split; [exact Hc|].
  destruct (persistence.failure _) as [e|] eqn:Hf.
  - injection H as <-. unfold issued, owners in *. cbn [DB Error].
    rewrite Hi, Ho. repeat split.
  - assert (Hs : silent s1 s2).
    { destruct (isSequence (Kind (owners s))).
      - apply bind_inv in H as (n & sa & Hn & H). apply must_inv in Hn as [_ ->].
        revert H. apply silent_forEach. intros i.
        apply silent_cleanUpDeletedRelations.
      - destruct (bool_decide (Kind (owners s) = Struct)).
        + revert H. apply silent_cleanUpDeletedRelations.
        + injection H as <-. reflexivity. }
    destruct Hs as [(Hcalls & _ & _ & _ & _ & Hshape) Herr2].
    split; [unfold issued in *; rewrite Hcalls; exact Hi|].
    split; [congruence|]. split; [reflexivity|].
    split; [rewrite Hshape, Ho; reflexivity|]. intros Hn. congruence.
Qed.

Lemma delete_one_call_witness :
  exists r s',
    Delete [comment3]
      (handle comments
         (entity "User" 1 [("Comments", VSlice (TStruct "Comment") [comment3])]) [])
    = Ok r s'
    /\ exists c,
         deleteCall comments
           (entity "User" 1 [("Comments", VSlice (TStruct "Comment") [comment3])])
           [comment3] = Some c
         /\ issued s' = ([] ++ [c])%list
         /\ r = persistence.failure (default persistence.success (head []))
         /\ Error s' = r
         /\ shape (owners s')
            = shape (entity "User" 1 [("Comments", VSlice (TStruct "Comment") [comment3])])
         /\ (r <> None ->
             owners s'
             = entity "User" 1 [("Comments", VSlice (TStruct "Comment") [comment3])]).
Proof.
  do 2 eexists. split; [vm_compute; reflexivity|].
  apply (delete_one_call [comment3]
           (handle comments
              (entity "User" 1 [("Comments", VSlice (TStruct "Comment") [comment3])]) [])).
  - reflexivity.
  - vm_compute. reflexivity.
Defined.

(** ** Witnesses of the properties of Delete and Clear *)

Lemma delete_failure_keeps_owners_witness :
  exists c s',
    deleteCall comments
      (entity "User" 1 [("Comments", VSlice (TStruct "Comment") [comment3])])
      [comment3] = Some c
    /\ Delete [comment3]
         (handle comments
            (entity "User" 1 [("Comments", VSlice (TStruct "Comment") [comment3])])
            [failing "update"])
       = Ok (Some (ErrExec "update")) s'
    /\ Error s' = Some (ErrExec "update")
    /\ owners s' = entity "User" 1 [("Comments", VSlice (TStruct "Comment") [comment3])]
    /\ issued s' = ([] ++ [c])%list.
Proof.
  eexists. 
  destruct (delete_failure_keeps_owners
              (handle comments
                 (entity "User" 1 [("Comments", VSlice (TStruct "Comment") [comment3])])
                 [failing "update"])
              [comment3] _ (failing "update") [] (ErrExec "update")
              eq_refl eq_refl eq_refl eq_refl) as (s' & H).
  exists s'. split; [reflexivity|exact H].
Defined.

Lemma clear_twice_same_owners_witness :
  exists s1 s2,
    Clear (handle account (entity "User" 1 [("Account", account10)]) []) = Ok None s1
    /\ Clear s1 = Ok None s2
    /\ ReflectValueOf (RField account) (owners s1) = Some (Zero (TStruct "Account"))
    /\ owners s2 = owners s1.
Proof.
  apply (clear_twice_same_owners
           (handle account (entity "User" 1 [("Account", account10)]) [])
           "User" [("ID", VScalar (SInt 1)); ("Account", account10)]).
  - reflexivity.
  - reflexivity.
  - discriminate.
  - reflexivity.
Defined.

(** ** Append on a collection relationship, for a single owner *)

Lemma appendToFieldValues_assignable e l x s :
  TypeOf x = Some e ->
  appendToFieldValues e (VSlice e l) x s = Ok (VSlice e (l ++ [x])) s.
Proof.
  intros Hty. unfold appendToFieldValues. rewrite Hty. cbn [must].
  unfold mbind, M_bind, mret, M_ret. unfold AssignableTo.
  rewrite bool_decide_eq_true_2 by reflexivity.
  unfold reflect.Append. rewrite Hty. unfold AssignableTo.
  rewrite bool_decide_eq_true_2 by reflexivity. reflexivity.
Qed.

Lemma appendToRelations_collection s n fs e l x :
  Error s = None ->
  Type_ (Relationship s) = HasMany \/ Type_ (Relationship s) = Many2Many ->
  owners s = VStruct n fs ->
  FieldType (RField (Relationship s)) = TSlice e ->
  ReflectValueOf (RField (Relationship s)) (VStruct n fs) = Some (VSlice e l) ->
  Kind x = Struct -> TypeOf x = Some e ->
  appendToRelations Whole x false s
  = Ok tt (afterSet s (VStruct n (field_put (Name (RField (Relationship s)))
                                    (VSlice e (l ++ [x])) fs))).
Proof.
  intros He Ht Ho Hft Hcur Hk Hty.
  assert (Hset : forall s0, owners s0 = VStruct n fs ->
            Relationship s0 = Relationship s ->
            fieldSet (RField (Relationship s)) Whole (VSlice e (l ++ [x])) s0
            = Ok None {| DB := persistence.with_value
                                 (VStruct n (field_put (Name (RField (Relationship s)))
                                               (VSlice e (l ++ [x])) fs)) (DB s0);
                         Relationship := Relationship s0; Error := Error s0 |}).
  { intros s0 Ho0 _. apply fieldSet_whole_struct; [exact Ho0|].
    rewrite Hft. reflexivity. }
  unfold appendToRelations.
  unfold mbind at 1, M_bind at 1, get at 1.
  assert (Hb : forall (A : Type) (a b : A),
            match Type_ (Relationship s) with
            | HasOne | BelongsTo => a
            | HasMany | Many2Many => b
            end = b).
  { intros A a b. destruct Ht as [-> | ->]; reflexivity. }
  rewrite Hb. unfold IndirectFieldType. rewrite Hft. cbn [strip_pointers TypeElem].
  cbn [must]. unfold mbind at 1, M_bind at 1. cbn [mret M_ret].
  unfold mbind at 1, M_bind at 1, reflectValue at 1. fold (owners s). rewrite Ho, Hcur.
  cbn [must]. unfold mbind at 1, M_bind at 1. cbn [mret M_ret Indirect].
  destruct x as [|[]|xn xfs| |]; try discriminate Hk. cbn [Kind isSequence].
  rewrite bool_decide_eq_true_2 by reflexivity.
  rewrite (bind_ok _ _ _ _ _ (appendToFieldValues_assignable e l _ s Hty)).
  unfold mbind, M_bind, get, mret, M_ret, must. rewrite He.
  rewrite (Hset s Ho eq_refl). unfold setError, afterSet. reflexivity.
Qed.

Lemma forEach_collection (c : nat -> bool) n e (vals : list (nat * Value)) :
  (forall i, c i = false) ->
  forall s fs l,
    Error s = None ->
    Type_ (Relationship s) = HasMany \/ Type_ (Relationship s) = Many2Many ->
    owners s = VStruct n fs ->
    FieldType (RField (Relationship s)) = TSlice e ->
    ReflectValueOf (RField (Relationship s)) (VStruct n fs) = Some (VSlice e l) ->
    Forall (fun p => Kind (Indirect p.2) = Struct /\ TypeOf (Indirect p.2) = Some e) vals ->
    exists s' fs',
      forEach vals (fun '(idx, value) => appendToRelations Whole (Indirect value) (c idx)) s
      = Ok tt s'
      /\ Relationship s' = Relationship s
      /\ Error s' = None
      /\ owners s' = VStruct n fs'
      /\ ReflectValueOf (RField (Relationship s)) (VStruct n fs')
         = Some (VSlice e (l ++ map (fun p => Indirect p.2) vals)).
Proof.
  intros Hc. induction vals as [|[idx value] vals IH]; intros s fs l He Ht Ho Hft Hcur Hall.
  - exists s, fs. cbn. rewrite app_nil_r. auto.
  - apply Forall_cons in Hall as [[Hk Hty] Hall]. cbn [snd] in Hk, Hty.
    pose proof (appendToRelations_collection s n fs e l (Indirect value)
                  He Ht Ho Hft Hcur Hk Hty) as Hstep.
    set (s1 := afterSet s _) in Hstep.
    destruct (IH s1 (field_put (Name (RField (Relationship s)))
                       (VSlice e (l ++ [Indirect value])) fs)
                 (l ++ [Indirect value])%list)
      as (s' & fs' & Hrun & Hrel & Herr & Ho' & Hcur'); try assumption; try reflexivity.
    { unfold ReflectValueOf. cbn [Indirect Relationship s1 afterSet].
      rewrite field_get_put. reflexivity. }
    exists s', fs'. split; [|split; [|split; [|split]]].
    + cbn [forEach]. rewrite Hc. rewrite (bind_ok _ _ _ _ _ Hstep). exact Hrun.
    + rewrite Hrel. reflexivity.
    + exact Herr.
    + exact Ho'.
    + cbn [Relationship s1 afterSet] in Hcur'. rewrite Hcur'.
      cbn [map snd]. rewrite <- app_assoc. reflexivity.
Qed.

Lemma map_Indirect_imap (g : nat -> nat) (values : list Value) :
  map (fun p : nat * Value => Indirect p.2) (imap (fun i v => (g i, v)) values)
  = map Indirect values.
Proof.
  revert g. induction values as [|v values IH]; intros g; [reflexivity|].
  cbn [imap map snd]. f_equal. exact (IH (g ∘ S)).
Qed.

(** X8: on a handle without error bound to one owner, Append on a HasMany or
    Many2Many relationship with struct values of the element type (given
    directly or through a pointer) returns nil and leaves in the owner's
    field what was there before followed by the values, in their order. *)
Theorem append_collection_appends
    (values : list Value) (s : Association) n fs e l :
  Error s = None ->
  Type_ (Relationship s) = HasMany \/ Type_ (Relationship s) = Many2Many ->
  owners s = VStruct n fs ->
  FieldType (RField (Relationship s)) = TSlice e ->
  ReflectValueOf (RField (Relationship s)) (owners s) = Some (VSlice e l) ->
  Forall (fun v => Kind (Indirect v) = Struct /\ TypeOf (Indirect v) = Some e) values ->
  exists s',
    Append values s = Ok None s'
    /\ ReflectValueOf (RField (Relationship s)) (owners s')
       = Some (VSlice e (l ++ map Indirect values)).
Proof.
  intros He Ht Ho Hft Hcur Hall. rewrite Ho in Hcur.
  destruct (forEach_collection (fun idx => false && bool_decide (idx = 0%nat)) n e
              (imap (fun idx value => (idx, value)) values) (fun _ => eq_refl)
              s fs l He Ht Ho Hft Hcur)
    as (s1 & fs1 & Hrun & Hrel & Herr & Ho1 & Hcur1).
  { apply Forall_lookup_2. intros i [j x] Hi.
    apply list_lookup_imap_Some in Hi as (y & Hy & [= -> ->]).
    eapply Forall_lookup_1 in Hall; eauto. }
  rewrite (map_Indirect_imap (fun i => i)) in Hcur1.
  destruct (call_ok (persistence.Save None (VStruct n fs1)) s1)
    as (o1 & s2 & Hc1 & Ho2 & He2 & Hr2).
  destruct (call_ok (persistence.Save (Some (selectedColumns (Relationship s)))
                       (VStruct n fs1)) s1)
    as (o1' & s2' & Hc1' & Ho2' & He2' & Hr2').
  assert (Hsave : exists s2,
    saveAssociation false values s = Ok tt s2
    /\ Error s2 = None /\ owners s2 = VStruct n fs1).
  { unfold saveAssociation. unfold owners in Ho, Ho1.
    unfold get, reflectValue, mbind, M_bind, mret, M_ret in *.
    rewrite Ho. cbn [Kind isSequence]. rewrite bool_decide_eq_true_2 by reflexivity.
    cbn [andb]. cbn [andb] in Hrun. rewrite Hrun. rewrite Ho1.
    unfold must, ValueOf, ReflectValueOf. cbn [Indirect mbind option_bind mret M_ret].
    match goal with |- context [IsZero ?x] => destruct (IsZero x) end; cbn [snd];
      rewrite Ho1.
    - rewrite Hc1. exists s2. unfold owners in *. rewrite He2, Ho2. auto.
    - rewrite Hc1'. exists s2'. unfold owners in *. rewrite He2', Ho2'. auto. }
  destruct Hsave as (s2'' & Hsave & He'' & Ho'').
  exists s2''. split.
  - unfold Append. unfold mbind at 1, M_bind at 1, get at 1. rewrite He.
    destruct Ht as [-> | ->]; unfold mbind, M_bind, get, mret, M_ret;
      rewrite Hsave, He''; reflexivity.
  - rewrite Ho''. exact Hcur1.
Qed.

Lemma append_collection_appends_witness :
  exists s',
    Append [tag5; VPtr (TStruct "Tag") (Some (entity "Tag" 7 []))]
      (handle tags (entity "User" 1 [("Tags", VSlice (TStruct "Tag") [tag6])]) [])
    = Ok None s'
    /\ ReflectValueOf (RField tags) (owners s')
       = Some (VSlice (TStruct "Tag")
                 ([tag6] ++ map Indirect
                              [tag5; VPtr (TStruct "Tag") (Some (entity "Tag" 7 []))])).
Proof.
  apply (append_collection_appends
           [tag5; VPtr (TStruct "Tag") (Some (entity "Tag" 7 []))]
           (handle tags (entity "User" 1 [("Tags", VSlice (TStruct "Tag") [tag6])]) [])
           "User" [("ID", VScalar (SInt 1)); ("Tags", VSlice (TStruct "Tag") [tag6])]
           (TStruct "Tag") [tag6]).
  - reflexivity.
  - right. reflexivity.
  - reflexivity.
  - reflexivity.
  - reflexivity.
  - repeat constructor.
Defined.

(** ** Find and Count *)

(** X9: Count always returns and never touches the owners.  On a handle
    that holds an error it returns 0 and changes nothing.  On a handle without
    error it issues exactly one count query, under the clauses of the
    relationship, and returns the number that query left in the result
    variable, leaving the query's error in the handle, whether or not the
    query failed. *)
Theorem count_hands_back_what_the_query_left (s : Association) :
  exists n s',
    Count s = Ok n s'
    /\ owners s' = owners s
    /\ (Error s <> None -> n = 0%Z /\ s' = s)
    /\ (Error s = None ->
        let o := default persistence.success (head (persistence.script (DB s))) in
        n = persistence.counted o
        /\ Error s' = persistence.failure o
        /\ issued s'
           = (issued s
              ++ [persistence.Count
                    (queryClauses (Relationship s)
                       (ToQueryConditions (Relationship s) (owners s)))])%list).
Proof.
  unfold Count. unfold mbind at 1, M_bind at 1, get at 1.
  destruct (Error s) as [e|] eqn:He.
  - exists 0%Z, s. repeat split; congruence.
  - unfold mbind, M_bind, reflectValue, call, persistence.run, setError, mret, M_ret.
    cbn. eexists _, _. split; [reflexivity|]. split; [reflexivity|]. split.
    + congruence.
    + intros _. repeat split.
Qed.

(** A failed count query that left 7 in the variable: Count returns 7 and
    the handle holds the error. *)
Example count_after_failed_query :
  exists s',
    Count (handle comments user1
             [{| persistence.failure := Some (ErrExec "connection lost");
                 persistence.counted := 7 |}])
    = Ok 7%Z s'
    /\ Error s' = Some (ErrExec "connection lost").
Proof. eexists. split; vm_compute; reflexivity. Qed.

(** X10: on a handle without error, Find and Count query under the same
    clauses, each issues exactly one call, and Find returns and leaves in the
    handle the error of its call (nil when the query succeeds, whatever it
    finds), without touching the owners. *)
Theorem find_and_count_query_alike (conds : list Value) (s : Association) :
  Error s = None ->
  exists clauses r s1 n s2,
    Find conds s = Ok r s1
    /\ Count s = Ok n s2
    /\ issued s1 = (issued s ++ [persistence.Find clauses conds])%list
    /\ issued s2 = (issued s ++ [persistence.Count clauses])%list
    /\ r = Error s1
    /\ r = persistence.failure
             (default persistence.success (head (persistence.script (DB s))))
    /\ owners s1 = owners s.
Proof.
  intros He.
  exists (queryClauses (Relationship s) (ToQueryConditions (Relationship s) (owners s))).
  unfold Find, Count.
  unfold mbind, M_bind, reflectValue, call, persistence.run, setError, get, mret, M_ret.
  rewrite He. cbn. eexists _, _, _, _. repeat split.
Qed.

Lemma find_and_count_query_alike_witness :
  exists clauses r s1 n s2,
    Find [] (handle tags user1 [failing "query"]) = Ok r s1
    /\ Count (handle tags user1 [failing "query"]) = Ok n s2
    /\ issued s1 = ([] ++ [persistence.Find clauses []])%list
    /\ issued s2 = ([] ++ [persistence.Count clauses])%list
    /\ r = Error s1
    /\ r = persistence.failure (default persistence.success (head [failing "query"]))
    /\ owners s1 = user1.
Proof.
  apply (find_and_count_query_alike [] (handle tags user1 [failing "query"])).
  reflexivity.
Defined.

(** ** The handle db.Association builds *)

(** X11: the handle db.Association builds is on the database it was asked
    on; it has no error exactly when it has a relationship, and that is
    exactly when parsing succeeded and the column names a relationship of the
    schema, which is then the handle's.  Otherwise its error is the parse
    error, or the unsupported-relation error for that column. *)
Theorem association_bound_or_error
    (db : persistence.DB) (parsed : Parsed) (column : string) :
  BDB (Association_ db parsed column) = db
  /\ (BError (Association_ db parsed column) = None
      <-> is_Some (BRelationship (Association_ db parsed column)))
  /\ (forall rel,
        BRelationship (Association_ db parsed column) = Some rel
        <-> exists Relations,
              parsed = ParsedSchema Relations /\ Relations !! column = Some rel)
  /\ (forall err,
        BError (Association_ db parsed column) = Some err ->
        (exists e, parsed = ParseFailed e /\ err = ErrParse e)
        \/ err = ErrUnsupportedRelation column)
  /\ (is_Some (usable (Association_ db parsed column))
      <-> BError (Association_ db parsed column) = None).
Proof.
  unfold Association_, usable.
  destruct parsed as [e|Relations]; [|destruct (Relations !! column) as [rel|] eqn:Hl];
    cbn; unfold is_Some; repeat split; intros;
    repeat match goal with
           | H : exists _, _ |- _ => destruct H
           | H : _ /\ _ |- _ => destruct H
           end;
    try discriminate; try congruence; eauto.
  all: simplify_eq; eauto.
Qed.

(** ** One slice as the value of a singular relationship *)

Lemma saveAssociation_struct_single clear v s n fs s1 fs1 :
  owners s = VStruct n fs ->
  appendToRelations Whole (Indirect v) (clear && bool_decide (0%nat = 0%nat)) s
  = Ok tt s1 ->
  owners s1 = VStruct n fs1 ->
  exists s2,
    saveAssociation clear [v] s = Ok tt s2
    /\ owners s2 = owners s1 /\ Error s2 = Error s1
    /\ Relationship s2 = Relationship s1.
Proof.
  intros Ho Hstep Ho1.
  destruct (call_ok (persistence.Save None (VStruct n fs1)) s1)
    as (o1 & s2 & Hc1 & Ho2 & He2 & Hr2).
  destruct (call_ok (persistence.Save (Some (selectedColumns (Relationship s)))
                       (VStruct n fs1)) s1)
    as (o1' & s2' & Hc1' & Ho2' & He2' & Hr2').
  unfold saveAssociation. unfold owners in Ho, Ho1.
  unfold get, reflectValue, mbind, M_bind, mret, M_ret in *.
  rewrite Ho. cbn [Kind isSequence]. rewrite bool_decide_eq_true_2 by reflexivity.
  cbn [length]. rewrite (bool_decide_eq_false_2 (1 = 0)%nat) by lia.
  rewrite andb_false_r. cbn [imap forEach]. unfold mbind, M_bind, mret, M_ret.
  rewrite Hstep. rewrite Ho1.
  unfold must, ValueOf, ReflectValueOf. cbn [Indirect mbind option_bind mret M_ret].
  match goal with |- context [IsZero ?x] => destruct (IsZero x) end; cbn [snd];
    rewrite Ho1.
  - rewrite Hc1. exists s2. unfold owners in *. auto.
  - rewrite Hc1'. exists s2'. unfold owners in *. auto.
Qed.

Lemma Replace_after_save values s s1 :
  Error s = None -> singular s ->
  saveAssociation true values s = Ok tt s1 ->
  exists s',
    Replace values s = Ok (Error s1) s'
    /\ owners s' = owners s1 /\ Error s' = Error s1.
Proof.
  intros He Hs Hsave.
  destruct (call_ok (replaceHas (Relationship s) (owners s1)) s1)
    as (o & s2 & Hc & Ho2 & He2 & Hr2).
  unfold Replace. unfold mbind, M_bind, get, reflectValue, mret, M_ret.
  rewrite He, Hsave. fold (owners s1).
  destruct Hs as [Ht | Ht]; rewrite Ht.
  - rewrite Hc. exists s2. rewrite He2. auto.
  - exists s1. auto.
Qed.

Lemma appendToRelations_singular_slice s n fs t l c :
  singular s -> owners s = VStruct n fs ->
  appendToRelations Whole (VSlice t l) c s
  = match l with
    | [] => Ok tt s
    | x :: _ => (e ← fieldSet (RField (Relationship s)) Whole x; setError e) s
    end.
Proof.
  intros Hs Ho. unfold appendToRelations.
  unfold mbind at 1, M_bind at 1, get at 1.
  assert (Hb : forall (A : Type) (a b : A),
            match Type_ (Relationship s) with
            | HasOne | BelongsTo => a
            | HasMany | Many2Many => b
            end = a).
  { intros A a b. destruct Hs as [-> | ->]; reflexivity. }
  rewrite Hb. cbn [Kind isSequence Len must].
  unfold mbind at 1, M_bind at 1. cbn [mret M_ret length].
  destruct l as [|x rest].
  - rewrite bool_decide_eq_false_2 by (cbn; lia). reflexivity.
  - rewrite bool_decide_eq_true_2 by (cbn; lia).
    cbn [Index lookup list_lookup must].
    unfold mbind at 1, M_bind at 1. reflexivity.
Qed.

(** X12: on a handle without error bound to one owner, Append on a HasOne or
    BelongsTo relationship with one slice as its value stores the first
    element of the slice, a struct of the field's type, in the field and
    ignores the others; with an empty slice it leaves the owner as it is.
    Either way it returns nil. *)
Theorem append_singular_slice_takes_first
    (s : Association) n fs (t : type) (v : Value) (l : list Value) :
  Error s = None -> singular s -> owners s = VStruct n fs ->
  Indirect v = VSlice t l ->
  (forall x, head l = Some x -> fits s x) ->
  exists s',
    Append [v] s = Ok None s'
    /\ match head l with
       | Some x => ReflectValueOf (RField (Relationship s)) (owners s') = Some x
       | None => owners s' = owners s
       end.
Proof.
  intros He Hs Ho Hv Hfit.
  rewrite (Append_singular_is_Replace s [v] He Hs) by (cbn; lia).
  pose proof (appendToRelations_singular_slice s n fs t l
                (true && bool_decide (0%nat = 0%nat)) Hs Ho) as Hstep.
  rewrite <- Hv in Hstep at 1.
  destruct l as [|x rest]; cbn [head] in *.
  - destruct (saveAssociation_struct_single true v s n fs s fs Ho Hstep Ho)
      as (s2 & Hsave & Ho2 & He2 & _).
    destruct (Replace_after_save [v] s s2 He Hs Hsave) as (s' & Hr & Ho' & _).
    exists s'. rewrite Hr, He2, He. split; [reflexivity|congruence].
  - destruct (Hfit x eq_refl) as [Hk Hty].
    rewrite (bind_ok _ _ _ _ _ (fieldSet_whole_struct _ n fs x s Ho Hty)) in Hstep.
    unfold setError in Hstep. cbn [DB Relationship] in Hstep.
    match type of Hstep with _ = Ok tt ?st => set (s1 := st) in * end.
    destruct (saveAssociation_struct_single true v s n fs s1 _ Ho Hstep eq_refl)
      as (s2 & Hsave & Ho2 & He2 & _).
    destruct (Replace_after_save [v] s s2 He Hs Hsave) as (s' & Hr & Ho' & _).
    exists s'. rewrite Hr, He2. split; [reflexivity|].
    rewrite Ho', Ho2. unfold ReflectValueOf, owners. cbn. rewrite field_get_put.
    reflexivity.
Qed.

Lemma append_singular_slice_takes_first_witness :
  exists s',
    Append [VSlice (TStruct "Account") [account10; account11]]
      (handle account user1 []) = Ok None s'
    /\ ReflectValueOf (RField account) (owners s') = Some account10.
Proof.
  apply (append_singular_slice_takes_first (handle account user1 [])
           "User" [("ID", VScalar (SInt 1))] (TStruct "Account")
           (VSlice (TStruct "Account") [account10; account11])
           [account10; account11]).
  - reflexivity.
  - left. reflexivity.
  - reflexivity.
  - reflexivity.
  - intros x [= <-]. split; reflexivity.
Defined.

(** ** Clear on a collection of owners *)

Lemma fieldSet_at_new f t pre o rest s :
  owners s = VSlice t (pre ++ o :: rest) -> Kind o = Struct ->
  fieldSet f (At (length pre)) (New (FieldType f)) s
  = Ok None {| DB := persistence.with_value
                       (VSlice t (pre ++ cleared f o :: rest)) (DB s);
               Relationship := Relationship s; Error := Error s |}.
Proof.
  intros Ho Hk. destruct o as [|[]|n fs| |]; try discriminate Hk.
  unfold fieldSet, load, store, reflectValue, setReflectValue, must.
  unfold mbind, M_bind, mret, M_ret. fold (owners s). rewrite Ho.
  cbn [Index]. rewrite list_lookup_middle by reflexivity.
  unfold Set_, settable, New. cbn [TypeOf]. unfold AssignableTo.
  rewrite bool_decide_eq_false_2 by apply type_not_own_pointer.
  rewrite bool_decide_eq_true_2 by reflexivity. cbn [store_field mbind option_bind fst snd].
  fold (owners s). rewrite Ho.
  rewrite <- (Nat.add_0_r (length pre)) at 1. rewrite insert_app_r. reflexivity.
Qed.

Lemma forEach_clear f t :
  forall rest pre s,
    owners s = VSlice t (pre ++ rest) ->
    Forall (fun o => Kind o = Struct) rest ->
    exists s',
      forEach (seq (length pre) (length rest))
        (fun i => fieldSet f (At i) (New (FieldType f));; mret tt) s
      = Ok tt s'
      /\ owners s' = VSlice t (pre ++ map (cleared f) rest)
      /\ silent s s'.
Proof.
  induction rest as [|o rest IH]; intros pre s Ho Hall.
  - exists s. cbn. split; [reflexivity|]. split; [exact Ho|reflexivity].
  - apply Forall_cons in Hall as [Hk Hall].
    pose proof (fieldSet_at_new f t pre o rest s Ho Hk) as Hstep.
    set (s1 := {| DB := _ |}) in Hstep.
    destruct (IH (pre ++ [cleared f o])%list s1) as (s' & Hrun & Ho' & Hsil).
    { unfold owners, s1. cbn. rewrite <- app_assoc. reflexivity. }
    { exact Hall. }
    exists s'. split; [|split].
    + cbn [length seq forEach].
      rewrite length_app, Nat.add_1_r in Hrun.
      unfold mbind at 1, M_bind at 1. unfold mbind at 1, M_bind at 1.
      rewrite Hstep. cbn [mret M_ret]. exact Hrun.
    + rewrite Ho', <- app_assoc. reflexivity.
    + etransitivity; [|exact Hsil].
      exact (silent_fieldSet f (At (length pre)) _ s None s1 Hstep).
Qed.

Lemma saveAssociation_clear_collection s t l :
  owners s = VSlice t l ->
  Forall (fun o => Kind o = Struct) l ->
  IndirectFieldType (RField (Relationship s)) = FieldType (RField (Relationship s)) ->
  exists s1,
    saveAssociation true [] s = Ok tt s1
    /\ owners s1 = VSlice t (map (cleared (RField (Relationship s))) l)
    /\ Error s1 = Error s
    /\ Relationship s1 = Relationship s
    /\ issued s1
       = (issued s
          ++ [persistence.Save (Some (selectedColumns (Relationship s))) (owners s1)])%list.
Proof.
  intros Ho Hall Hind.
  destruct (forEach_clear (RField (Relationship s)) t l [] s Ho Hall)
    as (s0 & Hrun & Ho0 & [Hq He0]).
  cbn [length app] in Hrun, Ho0.
  destruct Hq as (Hcalls & _ & _ & _ & Hrel & _).
  destruct (call_ok (persistence.Save (Some (selectedColumns (Relationship s)))
                       (owners s0)) s0) as (o & s1 & Hc & Ho1 & He1 & Hr1).
  pose proof (call_issues _ _ _ _ Hc) as [Hi _].
  exists s1. split.
  - unfold saveAssociation.
    unfold mbind at 1, M_bind at 1, get at 1.
    unfold mbind at 1, M_bind at 1, reflectValue at 1. fold (owners s). rewrite Ho.
    cbn [Kind isSequence Len must]. rewrite Hind.
    destruct l as [|o1 l1].
    + cbn in Hrun. injection Hrun as <-.
      rewrite mret_bind. cbn [length].
      rewrite (bool_decide_eq_false_2 (0 <> 0)%nat) by lia. cbn [andb seq foldM].
      unfold mbind, M_bind, mret, M_ret, reflectValue. fold (owners s).
      rewrite Hc. reflexivity.
    + rewrite mret_bind. cbn [length].
      rewrite bool_decide_eq_true_2 by (cbn; lia).
      rewrite bool_decide_eq_true_2 by reflexivity. cbn [andb].
      unfold mbind at 1, M_bind at 1. unfold mbind at 1, M_bind at 1.
      cbn [length] in Hrun. rewrite Hrun. cbn [mret M_ret].
      unfold mbind, M_bind, reflectValue, mret, M_ret. fold (owners s0).
      rewrite Hc. reflexivity.
  - rewrite Ho1, He1, Hr1, Ho0, He0, Hrel, Hi. unfold issued. rewrite Hcalls.
    repeat split. rewrite Ho0. reflexivity.
Qed.

Lemma bind_assoc_at {A B C} (m : M A) (k : A -> M B) (k' : B -> M C) s :
  ((m ≫= k) ≫= k') s = (m ≫= fun a => k a ≫= k') s.
Proof. unfold mbind, M_bind. destruct (m s); reflexivity. Qed.

Lemma mapM_must_ok {A B} msg (g : A -> option B) (l : list A) s :
  Forall (fun x => is_Some (g x)) l ->
  exists ys, mapM (fun x => must msg (g x)) l s = Ok ys s.
Proof.
  induction 1 as [|x l [y Hy] _ [ys IH]]; cbn [mapM].
  - exists []. reflexivity.
  - exists (y :: ys). unfold mbind at 1, M_bind at 1. rewrite Hy. cbn [must mret M_ret].
    unfold mbind at 1, M_bind at 1. rewrite IH. reflexivity.
Qed.

(** X13: on a handle without error bound to a collection of owners (structs;
    the field's type being no pointer type), Clear returns nil and leaves
    every owner with the zero value in its relationship field and its other
    fields as they were.  The first call it issues is a save of the owners
    restricted to the selected columns, whatever the owners' primary keys
    are. *)
Theorem clear_collection (s : Association) (t : type) (l : list Value) :
  Error s = None ->
  owners s = VSlice t l ->
  Forall (fun o => Kind o = Struct) l ->
  (Type_ (Relationship s) = Many2Many -> is_Some (RJoinTable (Relationship s))) ->
  IndirectFieldType (RField (Relationship s)) = FieldType (RField (Relationship s)) ->
  exists s' rest,
    Clear s = Ok None s'
    /\ owners s' = VSlice t (map (cleared (RField (Relationship s))) l)
    /\ issued s'
       = (issued s
          ++ persistence.Save (Some (selectedColumns (Relationship s))) (owners s')
             :: rest)%list.
Proof.
  intros He Ho Hall Hjt Hind.
  destruct (saveAssociation_clear_collection s t l Ho Hall Hind)
    as (s1 & Hsave & Ho1 & He1 & Hr1 & Hi1).
  assert (Hcall : forall c, exists s' rest,
    ((call c ≫= λ _ : persistence.Outcome, mret ())
     ≫= λ _ : (), get ≫= λ s'0 : Association, mret (Error s'0)) s1 = Ok None s'
    /\ owners s' = VSlice t (map (cleared (RField (Relationship s))) l)
    /\ issued s'
       = (issued s
          ++ persistence.Save (Some (selectedColumns (Relationship s))) (owners s')
             :: rest)%list).
  { intros c. destruct (call_ok c s1) as (o & s2 & Hc & Ho2 & He2 & Hr2).
    pose proof (call_issues _ _ _ _ Hc) as [Hi2 _].
    exists s2, [c]. unfold mbind, M_bind, get, mret, M_ret. rewrite Hc.
    rewrite He2, He1, He, Ho2, Ho1. split; [reflexivity|]. split; [reflexivity|].
    rewrite Hi2, Hi1, Ho1, <- app_assoc. reflexivity. }
  unfold Clear, Replace.
  unfold mbind at 1, M_bind at 1, get at 1. rewrite He.
  unfold mbind at 1, M_bind at 1. rewrite Hsave.
  unfold mbind at 1, M_bind at 1, reflectValue at 1. fold (owners s1).
  destruct (Type_ (Relationship s)) eqn:Ht.
  - apply Hcall.
  - apply Hcall.
  - exists s1, []. unfold mbind, M_bind, get, mret, M_ret.
    rewrite He1, He, Ho1. split; [reflexivity|]. split; [reflexivity|].
    rewrite Hi1, Ho1. reflexivity.
  - destruct (Hjt eq_refl) as [jt Hj]. rewrite Hj.
    destruct (mapM_must_ok "reflect: call of Field on a Value that is no struct"
                (generateConds (Relationship s)) (boundOwners (owners s1)) s1)
      as [owned Hm].
    { rewrite Ho1. unfold boundOwners. cbn [Kind isSequence].
      apply Forall_map. eapply Forall_impl; [exact Hall|].
      intros o Hk. destruct o as [|[]|n fs| |]; try discriminate Hk.
      unfold generateConds, ReflectValueOf, ToQueryValues, cleared.
      cbn [Indirect mbind option_bind]. eauto. }
    cbn [must]. rewrite mret_bind. rewrite bind_assoc_at.
    rewrite (bind_ok _ _ _ _ _ Hm). apply Hcall.
Qed.

Lemma clear_collection_witness :
  exists s' rest,
    Clear (handle account
             (users [entity "User" 0 [("Account", account10)];
                     entity "User" 2 [("Account", account11)]]) [])
    = Ok None s'
    /\ owners s'
       = users (map (cleared (RField account))
                  [entity "User" 0 [("Account", account10)];
                   entity "User" 2 [("Account", account11)]])
    /\ issued s'
       = ([] ++ persistence.Save (Some (selectedColumns account)) (owners s') :: rest)%list.
Proof.
  apply (clear_collection
           (handle account
              (users [entity "User" 0 [("Account", account10)];
                      entity "User" 2 [("Account", account11)]]) [])
           (TStruct "User")).
  - reflexivity.
  - reflexivity.
  - repeat constructor.
  - discriminate.
  - reflexivity.
Defined.

(** ** Delete on an owner that has nothing related *)

(** X14: when the relationship field of the single owner holds its zero
    value (nothing related in memory), a Delete whose update or delete
    succeeds returns nil and leaves the owner exactly as it was, whatever
    the values are. *)
Theorem delete_leaves_zero_field
    (values : list Value) (s : Association) c n fs fv :
  Error s = None ->
  deleteCall (Relationship s) (owners s) values = Some c ->
  persistence.failure (default persistence.success (head (persistence.script (DB s))))
  = None ->
  owners s = VStruct n fs ->
  ValueOf (RField (Relationship s)) (owners s) = Some (fv, true) ->
  exists s',
    Delete values s = Ok None s'
    /\ owners s' = owners s
    /\ issued s' = (issued s ++ [c])%list.
Proof.
  intros He Hc Hok Ho Hz.
  destruct (call_ok c s) as (o & s1 & Hcall & Ho1 & He1 & Hr1).
  pose proof (call_spec _ _ _ _ Hcall) as (Hout & Herr & Hi & _ & _).
  exists s1. split; [|split; [exact Ho1|exact Hi]].
  unfold Delete.
  unfold mbind at 1, M_bind at 1, get at 1. rewrite He.
  unfold mbind at 1, M_bind at 1, reflectValue at 1. fold (owners s).
  rewrite Hc. cbn [must]. rewrite mret_bind.
  unfold mbind at 1, M_bind at 1. rewrite Hcall.
  unfold mbind at 1, M_bind at 1, get at 1. rewrite Herr, Hout, Hok.
  rewrite Ho. cbn [Kind isSequence]. rewrite bool_decide_eq_true_2 by reflexivity.
  assert (Hclean : cleanUpDeletedRelations (Relationship s)
                     (GetIdentityFieldValuesMapFromValues values
                        (relFields (Relationship s))).1 Whole s1 = Ok tt s1).
  { unfold cleanUpDeletedRelations.
    unfold mbind at 1, M_bind at 1, load at 1.
    unfold mbind at 1, M_bind at 1, reflectValue at 1. fold (owners s1).
    cbn [mret M_ret]. rewrite Ho1, Ho. cbn [Indirect].
    rewrite Ho in Hz. rewrite Hz. cbn [must]. rewrite mret_bind. reflexivity. }
  unfold mbind, M_bind, get, mret, M_ret. rewrite Hclean, He1, He. reflexivity.
Qed.

Lemma delete_leaves_zero_field_witness :
  exists c s',
    deleteCall comments user1 [comment3] = Some c
    /\ Delete [comment3] (handle comments user1 []) = Ok None s'
    /\ owners s' = user1
    /\ issued s' = ([] ++ [c])%list.
Proof.
  eexists.
  destruct (delete_leaves_zero_field [comment3] (handle comments user1 []) _
              "User" [("ID", VScalar (SInt 1))] (VSlice (TStruct "Comment") [])
              eq_refl eq_refl eq_refl eq_refl eq_refl) as (s' & H).
  exists s'. split; [reflexivity|exact H].
Defined.

(** ** Delete on a collection field: which elements go *)





